(** * restic-ez: a shallow embedding of the backup wrapper script

    The script [restic-ez.py] drives the external programs [restic] and
    [dialog]: it loads a JSON configuration, fills in missing secrets,
    derives a process environment and runs fixed command sequences.

    The embedding follows the script class by class.  Python values are the
    values [json.loads] can produce; exceptions are an explicit error type;
    the instance attribute [Config._config] and the log of every interaction
    with the outside are threaded through a state-and-error monad; the
    outside (environment variables, module namespace, the [json] library,
    sub-processes and the file system) is a record of answers that may depend
    on everything that happened before. *)

From Stdlib Require Import ZArith Ascii Floats.SpecFloat.
From stdpp Require Import base option list sorting strings pretty gmap.

Local Open Scope Z_scope.

(** ** Python values

    The values that [json.loads] returns: [None], [bool], [int], [float],
    [str], [list] and [dict].  A [dict] keeps its insertion order, so it is an
    association list (with distinct keys when it comes out of the parser).  A
    [str] is a sequence of code points below 256. *)

#[warnings="-register-all"]
Inductive json : Type :=
  | JNull
  | JBool (b : bool)
  | JInt (n : Z)
  | JFloat (f : spec_float)
  | JStr (s : string)
  | JArr (items : list json)
  | JObj (fields : list (string * json)).

(** Objects found in the module namespace: data, or anything else (modules,
    classes, functions). *)
Inductive pyobj : Type :=
  | PyData (v : json)
  | PyOther (what : string).

(** ** Exceptions *)

Inductive exn : Type :=
  | NameError (name : string)
  | KeyError (key : string)
  | TypeError
  | IndexError (msg : string)
  | ValueError (msg : string)
  | RuntimeError (msg : string)
  | JSONDecodeError
  | UnicodeDecodeError
  | CalledProcessError (returncode : Z)
  | OSError (what : string)
  | NotModelled (what : string).
(** [NotModelled] is not a Python exception: it marks the few dynamically
    typed corners (ordering of numbers and lists, formatting of non-strings,
    integer file descriptors, which of two errors a walk over a [dict] meets
    first) whose Python behaviour this development leaves out. *)

(** The specification's names for the failures the script raises. *)
Definition ConfigSourceError : exn :=
  RuntimeError "No configuration in environment or global namespace".
Definition UserCancelledError : exn := RuntimeError "Action cancelled by user".
Definition NoArchiveError : exn := IndexError "list index out of range".

(** ** Results of pure operations *)

Definition result (A : Type) : Type := exn + A.
Definition Ok {A} (a : A) : result A := inr a.
Definition Raise {A} (e : exn) : result A := inl e.

Definition rbind {A B} (r : result A) (k : A → result B) : result B :=
  match r with inl e => inl e | inr a => k a end.

Declare Scope result_scope.
Delimit Scope result_scope with res.
Notation "'try!' x ':=' r 'in' k" := (rbind r (λ x, k))
  (at level 10, x name, r at level 100, k at level 200) : result_scope.

(** ** Built-in operations on values *)

Module Py.
Local Open Scope result_scope.

Definition is_str (v : json) : bool :=
  match v with JStr _ => true | _ => false end.

Definition eq_str (needle : string) (v : json) : bool :=
  match v with JStr s => bool_decide (s = needle) | _ => false end.

(** [dict] lookup: the first (and, for parsed documents, only) binding. *)
Fixpoint assoc (key : string) (fields : list (string * json)) : option json :=
  match fields with
  | [] => None
  | (k, v) :: rest => if bool_decide (k = key) then Some v else assoc key rest
  end.

(** [d[key] = v]: overwrite in place, else append at the end. *)
Fixpoint assoc_set (key : string) (v : json) (fields : list (string * json))
  : list (string * json) :=
  match fields with
  | [] => [(key, v)]
  | (k, v0) :: rest =>
      if bool_decide (k = key) then (k, v) :: rest
      else (k, v0) :: assoc_set key v rest
  end.

(** [needle in haystack] on [str]. *)
Fixpoint substring_of (needle haystack : string) : bool :=
  String.prefix needle haystack ||
  match haystack with
  | EmptyString => false
  | String _ rest => substring_of needle rest
  end.

(** [obj[key]] with a [str] key. *)
Definition getitem (obj : json) (key : string) : result json :=
  match obj with
  | JObj fields =>
      match assoc key fields with
      | Some v => Ok v
      | None => Raise (KeyError key)
      end
  | _ => Raise TypeError
  end.

(** [key in obj] with a [str] key. *)
Definition contains (key : string) (obj : json) : result bool :=
  match obj with
  | JObj fields => Ok (bool_decide (is_Some (assoc key fields)))
  | JArr items => Ok (existsb (eq_str key) items)
  | JStr s => Ok (substring_of key s)
  | _ => Raise TypeError
  end.

(** [obj[key] = v] with a [str] key. *)
Definition setitem (obj : json) (key : string) (v : json) : result json :=
  match obj with
  | JObj fields => Ok (JObj (assoc_set key v fields))
  | _ => Raise TypeError
  end.

(** Iteration, as in [*obj] inside a list display. *)
Definition iter (obj : json) : result (list json) :=
  match obj with
  | JArr items => Ok items
  | JObj fields => Ok (JStr <$> fields.*1)
  | JStr s =>
      Ok ((λ c, JStr (String c EmptyString)) <$> String.list_ascii_of_string s)
  | _ => Raise TypeError
  end.

(** [f"{v}"].  Only [str] is formatted here. *)
Definition format (v : json) : result string :=
  match v with
  | JStr s => Ok s
  | _ => Raise (NotModelled "str() of a value that is not a str")
  end.

(** [a < b].  Strings compare by code point, integers by value; values of
    unrelated types do not compare. *)
Definition is_number (v : json) : bool :=
  match v with JBool _ | JInt _ | JFloat _ => true | _ => false end.

Definition lt (a b : json) : result bool :=
  match a, b with
  | JStr x, JStr y => Ok (String.ltb x y)
  | JInt x, JInt y => Ok (x <? y)
  | JArr _, JArr _ => Raise (NotModelled "ordering of lists")
  | _, _ =>
      if is_number a && is_number b
      then Raise (NotModelled "ordering of bool and float")
      else Raise TypeError
  end.

(** [str.strip()]: the white space among the first 256 code points. *)
Definition is_space (c : ascii) : bool :=
  match c with
  | "009" | "010" | "011" | "012" | "013"
  | "028" | "029" | "030" | "031" | " " | "133" | "160" => true
  | _ => false
  end%char.

Fixpoint lstrip (s : string) : string :=
  match s with
  | String c rest => if is_space c then lstrip rest else s
  | EmptyString => EmptyString
  end.

Definition strip (s : string) : string :=
  String.rev (lstrip (String.rev (lstrip s))).

(** [sep.join(parts)] *)
Definition join (sep : string) (parts : list string) : string :=
  String.concat sep parts.

(** [sorted(items, key=key)].  The keys are computed first, in order; the
    sort is stable and uses only [<] on keys.  Any stable sort returns the
    same list when no comparison raises, so a stable insertion sort stands
    for CPython's. *)
Fixpoint keys_of (key : json → result json) (items : list json)
  : result (list (json * json)) :=
  match items with
  | [] => Ok []
  | x :: rest =>
      try! k := key x in
      try! krest := keys_of key rest in
      Ok ((k, x) :: krest)
  end.

Fixpoint insert_keyed (kx : json * json) (sorted : list (json * json))
  : result (list (json * json)) :=
  match sorted with
  | [] => Ok [kx]
  | ky :: rest =>
      try! smaller := lt ky.1 kx.1 in
      if smaller : bool then
        try! rest' := insert_keyed kx rest in Ok (ky :: rest')
      else Ok (kx :: ky :: rest)
  end.

(** Elements are inserted from the right, each one before the first element
    that is not smaller: equal keys keep their order. *)
Fixpoint sort_keyed (items : list (json * json)) : result (list (json * json)) :=
  match items with
  | [] => Ok []
  | kx :: rest =>
      try! rest' := sort_keyed rest in
      insert_keyed kx rest'
  end.

Definition sorted (key : json → result json) (items : list json)
  : result (list json) :=
  try! keyed := keys_of key items in
  try! keyed' := sort_keyed keyed in
  Ok (keyed'.*2).

(** [filter(keep, items)], consumed by [sorted]: the predicate runs on each
    element in order and the first exception ends the iteration. *)
Fixpoint filter (keep : json → result bool) (items : list json)
  : result (list json) :=
  match items with
  | [] => Ok []
  | x :: rest =>
      try! b := keep x in
      try! rest' := filter keep rest in
      Ok (if b : bool then x :: rest' else rest')
  end.
End Py.

(** ** Strings the operating system takes

    An argument or an environment entry is handed over as a C string, which
    ends at the first NUL; the name of an environment variable ends at the
    first ["="]. *)

Fixpoint has_char (c : ascii) (s : string) : bool :=
  match s with
  | EmptyString => false
  | String a rest => Ascii.eqb a c || has_char c rest
  end.

Definition nul_free (s : string) : bool := negb (has_char "000"%char s).
Definition legal_name (k : string) : bool := negb (has_char "="%char k).

(** What [os.environ] can hold: it is read from the environment block of
    the process, and [os.putenv] refuses every other entry. *)
Definition acceptable (environ : gmap string string) : Prop :=
  map_Forall (λ k v, legal_name k && nul_free k && nul_free v) environ.

(** ** The outside world

    A sub-process is described by its argument vector, the [shell] flag and
    the environment it is started with.  Every interaction is logged together
    with its outcome: a logged process is one that [subprocess] tried to
    start; a call with arguments that [subprocess] refuses raises and logs
    nothing. *)

Record Cmd : Type := mkCmd {
  argv : list string;
  shell : bool;
  penv : gmap string string }.

Inductive Event : Type :=
  | EvCheckOutput (c : Cmd) (r : result string)
  | EvRun (c : Cmd) (r : option exn)
  | EvOpen (path : string) (r : result string)
  | EvExists (path : string) (r : bool)
  | EvRmtree (path : string) (r : option exn)
  | EvMove (src dst : string) (r : option exn).

(** What the script does not control.  [subprocess_check_output] stands for
    [subprocess.check_output(...).decode("utf-8")], [subprocess_run] for
    [subprocess.run(...).check_returncode()], [open_read] for
    [open(path, mode="r").read()].  The answers of the operating system may
    depend on the interactions so far. *)
Record World : Type := mkWorld {
  os_environ : gmap string string;
  module_globals : gmap string pyobj;
  json_loads : string → result json;
  json_dumps : json → string;
  subprocess_check_output : list Event → Cmd → result string;
  subprocess_run : list Event → Cmd → option exn;
  open_read : list Event → string → result string;
  os_path_exists : list Event → string → bool;
  shutil_rmtree : list Event → string → option exn;
  shutil_move : list Event → string → string → option exn;
  environ_ok : acceptable os_environ }.

(** The mutable state: the [_config] attribute of the one [Config] instance a
    run creates, and the log. *)
Record State : Type := mkState {
  self_config : json;
  trace : list Event }.

Definition initial : State := {| self_config := JNull; trace := [] |}.

(** ** The monad of the script *)

Definition M (A : Type) : Type := World → State → result A * State.

Definition ret {A} (a : A) : M A := λ _ s, (Ok a, s).
Definition raise {A} (e : exn) : M A := λ _ s, (Raise e, s).
Definition lift {A} (r : result A) : M A := λ _ s, (r, s).

Definition bind {A B} (m : M A) (k : A → M B) : M B :=
  λ w s,
    match m w s with
    | (inl e, s') => (inl e, s')
    | (inr a, s') => k a w s'
    end.

(** [try: m except: h], with a bare [except] *)
Definition catch {A} (m : M A) (h : M A) : M A :=
  λ w s,
    match m w s with
    | (inl _, s') => h w s'
    | (inr a, s') => (inr a, s')
    end.

Declare Scope script_scope.
Delimit Scope script_scope with script.
Notation "'let*' x ':=' m 'in' k" := (bind m (λ x, k))
  (at level 10, x name, m at level 100, k at level 200) : script_scope.
Notation "m '>>' k" := (bind m (λ _, k))
  (at level 100, k at level 200, right associativity) : script_scope.
Local Open Scope script_scope.

Definition world : M World := λ w s, (Ok w, s).
Definition get_config : M json := λ _ s, (Ok (self_config s), s).
Definition set_config (doc : json) : M unit :=
  λ _ s, (Ok (), {| self_config := doc; trace := trace s |}).

Definition log (ev : Event) (s : State) : State :=
  {| self_config := self_config s; trace := trace s ++ [ev] |}.

Definition of_option (r : option exn) : result unit :=
  match r with Some e => Raise e | None => Ok () end.

Definition check_output (c : Cmd) : M string :=
  λ w s, let r := subprocess_check_output w (trace s) c in
         (r, log (EvCheckOutput c r) s).
Definition run (c : Cmd) : M unit :=
  λ w s, let r := subprocess_run w (trace s) c in
         (of_option r, log (EvRun c r) s).
Definition open_and_read (path : string) : M string :=
  λ w s, let r := open_read w (trace s) path in (r, log (EvOpen path r) s).
Definition path_exists (path : string) : M bool :=
  λ w s, let r := os_path_exists w (trace s) path in
         (Ok r, log (EvExists path r) s).
Definition rmtree (path : string) : M unit :=
  λ w s, let r := shutil_rmtree w (trace s) path in
         (of_option r, log (EvRmtree path r) s).
Definition move (src dst : string) : M unit :=
  λ w s, let r := shutil_move w (trace s) src dst in
         (of_option r, log (EvMove src dst r) s).

(** A path argument: a [str]; an [int] would name a file descriptor. *)
Definition as_path (v : json) : result string :=
  match v with
  | JStr s => Ok s
  | JInt _ | JBool _ => Raise (NotModelled "integer file descriptor")
  | _ => Raise TypeError
  end.

(** ** What [subprocess] refuses

    [subprocess.check_output] and [subprocess.run] check their arguments
    before they start anything (CPython 3.11 on Linux, [Popen._execute_child]
    and [_fork_exec]), in this order: [list(args)]; [args[0]], the
    executable, unless a shell is asked for; the environment, entry by entry,
    for names with ["="] and values that are not [str]; the arguments, one by
    one, for values that are not [str] and for NUL; the environment for
    NUL. *)

(** [list(args)]; a [str] stands for the list that holds it. *)
Definition arguments (command : json) : result (list json) :=
  match command with
  | JStr _ => Ok [command]
  | _ => Py.iter command
  end.

(** [executable = args[0]], which [os.path.dirname] then looks at. *)
Definition executable (shell : bool) (args : list json) : result unit :=
  if shell then Ok ()
  else match args with
       | [] => Raise (IndexError "list index out of range")
       | JStr _ :: _ => Ok ()
       | _ :: _ => Raise TypeError
       end.

(** The argument vector: every element a [str] without NUL. *)
Fixpoint as_strings (vs : list json) : result (list string) :=
  match vs with
  | [] => Ok []
  | JStr s :: rest =>
      if nul_free s then rbind (as_strings rest) (λ ss, Ok (s :: ss))
      else Raise (ValueError "embedded null byte")
  | _ :: _ => Raise TypeError
  end.

Definition str_of (v : json) : option string :=
  match v with JStr s => Some s | _ => None end.

(** [{**os.environ, **env}] as a dictionary of Python values. *)
Definition exported_env (environ : gmap string string) (env : gmap string json)
  : gmap string json :=
  env ∪ (JStr <$> environ).

(** The loop over the entries of the environment.  An entry with ["="] in
    its name raises [ValueError], any other entry whose value is not a [str]
    raises [TypeError]; which of two such entries comes first depends on the
    order of the dictionary, which a [gmap] does not keep. *)
Definition env_list (env : gmap string json) : result (gmap string string) :=
  if bool_decide (map_Forall (λ k v, legal_name k && Py.is_str v) env)
  then Ok (omap str_of env)
  else if bool_decide (map_Forall (λ k _, legal_name k) env)
  then Raise TypeError
  else if bool_decide (map_Forall (λ k v, legal_name k → Py.is_str v) env)
  then Raise (ValueError "illegal environment variable name")
  else Raise (NotModelled "order of the environment").

(** The environment block: no name and no value with NUL. *)
Definition envp (env : gmap string string) : result (gmap string string) :=
  if bool_decide (map_Forall (λ k v, nul_free k && nul_free v) env)
  then Ok env
  else Raise (ValueError "embedded null byte").

(** [{**os.environ, **env}], as the sub-process receives it. *)
Definition merged_env (environ : gmap string string) (env : gmap string json)
  : result (gmap string string) :=
  rbind (env_list (exported_env environ env)) envp.

Definition dquote : string := String "034"%char EmptyString.

(** ** [class Command] *)

Module Command.

Record t : Type := mk { _command : json; _env : gmap string json }.

Definition init (command : json) (env : gmap string json) : t :=
  {| _command := match command with JStr _ => JArr [command] | _ => command end;
     _env := env |}.

(** The arguments of the call of [subprocess], [self._command] and
    [{**os.environ, **self._env}], as a process to start, unless [subprocess]
    refuses them. *)
Definition prepare (self : t) (shell : bool) : M Cmd :=
  let* w := world in
  let* args := lift (arguments (_command self)) in
  lift (executable shell args) >>
  let* env := lift (env_list (exported_env (os_environ w) (_env self))) in
  let* args := lift (as_strings args) in
  let* env := lift (envp env) in
  ret {| argv := args; shell := shell; penv := env |}.

Definition capture (self : t) (shell : bool) (trim : bool) : M string :=
  let* c := prepare self shell in
  let* result := check_output c in
  ret (if trim then Py.strip result else result).

Definition display (self : t) (shell : bool) : M unit :=
  let* c := prepare self shell in
  run c.

End Command.

(** ** [class Dialog] *)

Module Dialog.

Definition truefalse_command (question true_ false_ : string) (default : bool)
  : list string :=
  [ "dialog"; "--stdout"; "--clear";
    "--yes-label"; true_; "--no-label"; false_;
    "--default-button"; if default then true_ else false_;
    "--yesno"; question; "0"; "0" ].

Definition truefalse (question true_ false_ : string) (default : bool) : M bool :=
  let command := truefalse_command question true_ false_ default in
  catch
    (Command.capture (Command.init (JArr (JStr <$> command)) ∅) false true
     >> ret true)
    (ret false).

Definition input_command (dialog true_ false_ : string) (default : bool)
  : list string :=
  [ "dialog"; "--stdout"; "--clear";
    "--ok-label"; true_; "--cancel-label"; false_;
    "--default-button"; if default then true_ else false_;
    "--inputbox"; dialog; "0"; "0" ].

Definition input (dialog true_ false_ : string) (default : bool) : M string :=
  let command := input_command dialog true_ false_ default in
  catch
    (Command.capture (Command.init (JArr (JStr <$> command)) ∅) false true)
    (raise (RuntimeError "Action cancelled by user")).

Definition info_command (info : string) : list string :=
  [ "dialog"; "--stdout"; "--infobox"; info; "0"; "0" ].

Definition info (info : string) : M unit :=
  let command := info_command info in
  Command.capture (Command.init (JArr (JStr <$> command)) ∅) false true
  >> ret ().

End Dialog.

(** ** [class Config] *)

Module Config.

(** A free variable of a method body is looked up in the module namespace;
    no built-in is called [env]. *)
Definition lookup_name (name : string) : M pyobj :=
  let* w := world in
  match module_globals w !! name with
  | Some o => ret o
  | None => raise (NameError name)
  end.

(** [os.environ[key]] *)
Definition environ_getitem (key : pyobj) : M string :=
  let* w := world in
  match key with
  | PyData (JStr k) =>
      match os_environ w !! k with
      | Some v => ret v
      | None => raise (KeyError k)
      end
  | _ => raise TypeError
  end.

(** [json.loads(text)] *)
Definition loads (text : pyobj) : M json :=
  let* w := world in
  match text with
  | PyData (JStr s) => lift (json_loads w s)
  | _ => raise TypeError
  end.

(** [self._config[section][name] = value] *)
Definition store (section name : string) (value : json) : M unit :=
  let* config := get_config in
  let* sec := lift (Py.getitem config section) in
  let* sec' := lift (Py.setitem sec name value) in
  let* config' := lift (Py.setitem config section sec') in
  set_config config'.

Definition input_title (section name : string) : string :=
  "Enter value for " +:+ dquote +:+ section +:+ "->" +:+ name +:+ dquote +:+ ":".

Definition _eval_field (section name : string) : M unit :=
  let* config := get_config in
  let* sec := lift (Py.getitem config section) in
  let* present := lift (Py.contains name sec) in
  if present : bool then ret ()
  else
    let* has_command := lift (Py.contains (name +:+ "_command") sec) in
    if has_command : bool then
      let* command := lift (Py.getitem sec (name +:+ "_command")) in
      let* value := Command.capture (Command.init command ∅) true true in
      store section name (JStr value)
    else
      let* value := Dialog.input (input_title section name) "Ok" "Cancel" false in
      store section name (JStr value).

Definition __init__ (env_json env_file var : string) : M unit :=
  let* w := world in
  (if bool_decide (env_json ∈ dom (os_environ w)) then
     let* env := lookup_name "env" in
     let* text := environ_getitem env in
     let* doc := loads (PyData (JStr text)) in
     set_config doc
   else if bool_decide (env_file ∈ dom (os_environ w)) then
     let* config_json := open_and_read env_file in
     let* doc := loads (PyData (JStr config_json)) in
     set_config doc
   else
     match module_globals w !! var with
     | Some text => let* doc := loads text in set_config doc
     | None =>
         raise (RuntimeError "No configuration in environment or global namespace")
     end) >>
  _eval_field "restic" "pass" >>
  _eval_field "s3" "pass".

(** [Config()] *)
Definition new : M unit :=
  __init__ "RESTIC_EZ_CONFIG" "RESTIC_EZ_CONFIG_FILE" "CONFIG".

Definition get_directory : M json :=
  let* config := get_config in
  lift (Py.getitem config "directory").

Definition get_restic_flags (context : string) : M json :=
  let* config := get_config in
  let* restic := lift (Py.getitem config "restic") in
  let* present := lift (Py.contains ("flags_" +:+ context) restic) in
  if present : bool then lift (Py.getitem restic ("flags_" +:+ context))
  else ret (JArr []).

Definition env : M (gmap string json) :=
  let* w := world in
  let* config := get_config in
  let dumped := json_dumps w config in
  let* directory := get_directory in
  let* restic := lift (Py.getitem config "restic") in
  let* restic_pass := lift (Py.getitem restic "pass") in
  let* restic_repo := lift (Py.getitem restic "repo") in
  let* s3 := lift (Py.getitem config "s3") in
  let* s3_user := lift (Py.getitem s3 "user") in
  let* s3_pass := lift (Py.getitem s3 "pass") in
  ret (list_to_map
         [ ("RESTIC_EZ_CONFIG", JStr dumped);
           ("DIRECTORY", directory);
           ("RESTIC_PASSWORD", restic_pass);
           ("RESTIC_REPOSITORY", restic_repo);
           ("AWS_ACCESS_KEY_ID", s3_user);
           ("AWS_SECRET_ACCESS_KEY", s3_pass) ]).

End Config.

(** ** [class Restic] *)

Module Restic.

Definition _list : M json :=
  let* flags := Config.get_restic_flags "list" in
  let* flags := lift (Py.iter flags) in
  let command := JArr ([JStr "restic"; JStr "snapshots"; JStr "--json"] ++ flags) in
  let* env := Config.env in
  let* result_json := Command.capture (Command.init command env) false true in
  Config.loads (PyData (JStr result_json)).

Definition create (tags : list string) : M unit :=
  let* flags := Config.get_restic_flags "backup" in
  let* flags := lift (Py.iter flags) in
  let* directory := Config.get_directory in
  let command :=
    JArr ([JStr "restic"; JStr "backup"; JStr "--tag"; JStr (Py.join "," tags)]
          ++ flags ++ [directory]) in
  let* env := Config.env in
  Command.display (Command.init command env) false.

(** [lambda a: "snapshot" not in a["tags"]] *)
Definition not_snapshot (a : json) : result bool :=
  rbind (Py.getitem a "tags") (λ tags,
  rbind (Py.contains "snapshot" tags) (λ tagged, Ok (negb tagged))).

(** [lambda a: a["time"]] *)
Definition time_key (a : json) : result json := Py.getitem a "time".

(** [archives[-1]] *)
Definition last_item (items : list json) : result json :=
  match last items with
  | Some a => Ok a
  | None => Raise (IndexError "list index out of range")
  end.

(** The body of [if id is None:] in [restore]: the id of the latest archive
    that is not a snapshot. *)
Definition latest_id : M json :=
  let* archives := _list in
  let* archives := lift (Py.iter archives) in
  let* archives := lift (Py.filter not_snapshot archives) in
  let* archives := lift (Py.sorted time_key archives) in
  let* latest := lift (last_item archives) in
  lift (Py.getitem latest "id").

(** [id] is [None] when the argument is left out or is [None]. *)
Definition restore (tmpdir : string) (id : option json) : M unit :=
  let* id := match id with
             | None | Some JNull => latest_id
             | Some id => ret id
             end in
  let* flags := Config.get_restic_flags "restore" in
  let* flags := lift (Py.iter flags) in
  let command :=
    JArr ([JStr "restic"; JStr "restore"; JStr "--target"; JStr tmpdir]
          ++ flags ++ [id]) in
  let* env := Config.env in
  Command.display (Command.init command env) false.

Definition check : M unit :=
  let* flags := Config.get_restic_flags "check" in
  let* flags := lift (Py.iter flags) in
  let command :=
    JArr ([JStr "restic"; JStr "check"; JStr "--check-unused"; JStr "--read-data"]
          ++ flags) in
  let* env := Config.env in
  Command.display (Command.init command env) false.

Definition break_lock : M unit :=
  let* flags := Config.get_restic_flags "break_lock" in
  let* flags := lift (Py.iter flags) in
  let command := JArr ([JStr "restic"; JStr "unlock"] ++ flags) in
  let* env := Config.env in
  Command.display (Command.init command env) false.

End Restic.

(** ** The restore workflow: [def restore()] *)

Definition restore : M unit :=
  Config.new >>
  let* directory := Config.get_directory in
  let* path := lift (as_path directory) in
  let* present := path_exists path in
  (if present : bool then
     Dialog.info "Creating snapshot archive..." >>
     Restic.create ["snapshot"] >>
     let* directory := Config.get_directory in
     let* shown := lift (Py.format directory) in
     let* confirmed :=
       Dialog.truefalse ("Delete " +:+ dquote +:+ shown +:+ dquote +:+ "?")
         "Delete directory" "Cancel" false in
     (if negb confirmed then raise (RuntimeError "Action cancelled by user")
      else ret ()) >>
     let* directory := Config.get_directory in
     let* path := lift (as_path directory) in
     rmtree path
   else ret ()) >>
  Dialog.info "Restoring latest archive (this may take some time)..." >>
  let* directory := Config.get_directory in
  let* shown := lift (Py.format directory) in
  Restic.restore (shown +:+ ".restic-restore") None >>
  Dialog.info "Moving restored directory into final location..." >>
  let* directory := Config.get_directory in
  let* shown := lift (Py.format directory) in
  let* directory := Config.get_directory in
  let* inner := lift (Py.format directory) in
  let restored := shown +:+ ".restic-restore/" +:+ inner in
  let* directory := Config.get_directory in
  let* path := lift (as_path directory) in
  move restored path >>
  let* directory := Config.get_directory in
  let* shown := lift (Py.format directory) in
  rmtree (shown +:+ ".restic-restore").

(** ** The other workflows: [def create()], [def check()],
    [def break_lock()], [def tmux()] *)

Definition create : M unit :=
  Config.new >>
  Dialog.info "Creating archive..." >>
  Restic.create ["backup"].

Definition check : M unit :=
  Config.new >>
  Dialog.info "Verifying archive..." >>
  Restic.check.

Definition break_lock : M unit :=
  Config.new >>
  Dialog.info "Breaking lock..." >>
  Restic.break_lock.

Definition tmux : M unit :=
  let* w := world in
  Config.new >>
  let* config_env := Config.env in
  let env := exported_env (os_environ w) config_env in
  Command.display
    (Command.init (JArr [JStr "/usr/bin/env"; JStr "tmux"]) env) false.

(** ** Vocabulary of the specification *)

(** The variable names of section 6 of the specification. *)
Definition env_keys : gset string :=
  {[ "RESTIC_EZ_CONFIG"; "DIRECTORY"; "RESTIC_PASSWORD"; "RESTIC_REPOSITORY";
     "AWS_ACCESS_KEY_ID"; "AWS_SECRET_ACCESS_KEY" ]}.

(** The environment the specification documents, for a serialized
    configuration and its five fields. *)
Definition env_of (dumped : string)
    (directory restic_pass restic_repo s3_user s3_pass : json) : gmap string json :=
  <["RESTIC_EZ_CONFIG" := JStr dumped]>
  (<["DIRECTORY" := directory]>
  (<["RESTIC_PASSWORD" := restic_pass]>
  (<["RESTIC_REPOSITORY" := restic_repo]>
  (<["AWS_ACCESS_KEY_ID" := s3_user]>
  (<["AWS_SECRET_ACCESS_KEY" := s3_pass]> ∅))))).

(** The process behind a [Dialog] method or a secret command: no overlay on
    the ambient environment. *)
Definition plain_cmd (w : World) (args : list string) (shell : bool) : Cmd :=
  {| argv := args; shell := shell; penv := os_environ w |}.

(** The interactive prompt for a secret, and the shell command for one. *)
Definition secret_prompt (w : World) (section name : string) : Cmd :=
  plain_cmd w
    (Dialog.input_command (Config.input_title section name) "Ok" "Cancel" false)
    false.
Definition secret_command (w : World) (text : string) : Cmd :=
  plain_cmd w [text] true.

(** [doc[section][name]] *)
Definition field_of (doc : json) (section name : string) : result json :=
  rbind (Py.getitem doc section) (λ sec, Py.getitem sec name).

(** *** Secrets *)

(** The first half of [Config.__init__]: the sources, tried in order; the
    second half evaluates the two secret fields. *)
Definition load_document (env_json env_file var : string) : M unit :=
  let* w := world in
  if bool_decide (env_json ∈ dom (os_environ w)) then
    let* env := Config.lookup_name "env" in
    let* text := Config.environ_getitem env in
    let* doc := Config.loads (PyData (JStr text)) in
    set_config doc
  else if bool_decide (env_file ∈ dom (os_environ w)) then
    let* config_json := open_and_read env_file in
    let* doc := Config.loads (PyData (JStr config_json)) in
    set_config doc
  else
    match module_globals w !! var with
    | Some text => let* doc := Config.loads text in set_config doc
    | None =>
        raise (RuntimeError "No configuration in environment or global namespace")
    end.

(** White space only. *)
Definition blank (s : string) : Prop :=
  Forall (λ c, Py.is_space c) (String.list_ascii_of_string s).

(** [secret] is [text] trimmed: [text] without the white space at its two
    ends. *)
Definition trimmed (text secret : string) : Prop :=
  (∃ before after,
     text = before +:+ secret +:+ after ∧ blank before ∧ blank after) ∧
  (∀ c rest, secret = String c rest → ¬ Py.is_space c) ∧
  (∀ c rest, String.rev secret = String c rest → ¬ Py.is_space c).

(** A section as the data model of the specification has it: a mapping
    whose [pass], where it is given literally, is a string. *)
Definition secret_section (doc : json) (section : string) : Prop :=
  ∃ fields,
    Py.getitem doc section = Ok (JObj fields) ∧
    ∀ v, Py.assoc "pass" fields = Some v → Py.is_str v.

(** What construction leaves in a section: the section as it was loaded, if
    [pass] was found in it, or else the loaded mapping with a string stored
    under [pass]. *)
Definition section_outcome (loaded final : json) (sec : string) : Prop :=
  (∃ value,
     Py.getitem loaded sec = Ok value ∧ Py.contains "pass" value = Ok true ∧
     Py.getitem final sec = Ok value) ∨
  (∃ fields secret,
     Py.getitem loaded sec = Ok (JObj fields) ∧
     Py.assoc "pass" fields = None ∧
     Py.getitem final sec = Ok (JObj (Py.assoc_set "pass" (JStr secret) fields))).

(** What [Command] hands to [subprocess] is accepted: the command is a
    string, or a list or mapping that is not empty unless a shell runs it,
    of strings without NUL, and the environment binds legal names to strings,
    all without NUL. *)
Definition plain_string (v : json) : bool :=
  match v with JStr s => nul_free s | _ => false end.

Definition accepts (shell : bool) (command : json) (env : gmap string json)
  : bool :=
  match arguments command with
  | inl _ => false
  | inr items => (shell || negb (bool_decide (items = []))) && forallb plain_string items
  end &&
  bool_decide (map_Forall (λ k v, legal_name k && nul_free k && plain_string v) env).

(** *** Archive records

    An archive is a mapping with a [str] under ["time"] and ["id"] and a list
    under ["tags"]. *)

Definition archive_time (a : json) : string :=
  match Py.getitem a "time" with inr (JStr t) => t | _ => "" end.

Definition archive_id (a : json) : string :=
  match Py.getitem a "id" with inr (JStr i) => i | _ => "" end.

Definition archive_tags (a : json) : list json :=
  match Py.getitem a "tags" with inr (JArr tags) => tags | _ => [] end.

Definition is_archive (a : json) : bool :=
  match Py.getitem a "time", Py.getitem a "id", Py.getitem a "tags" with
  | inr (JStr _), inr (JStr _), inr (JArr _) => true
  | _, _, _ => false
  end.

(** Tagged ["snapshot"]. *)
Definition is_snapshot (a : json) : bool :=
  existsb (Py.eq_str "snapshot") (archive_tags a).

(** Ascending creation time: the order of the timestamp strings. *)
Definition time_le (a b : json) : Prop :=
  String.le (archive_time a) (archive_time b).

(** The record [(id, time, tags)] with no further fields. *)
Definition archive_record (id time : string) (tags : list string) : json :=
  JObj [("time", JStr time); ("id", JStr id); ("tags", JArr (JStr <$> tags))].

(** An archive paired with its sort key. *)
Definition keyed (a : json) : json * json := (JStr (archive_time a), a).

(** The stable insertion sort of [Py.sorted], on archives keyed by time. *)
Fixpoint insert_time (a : json) (sorted : list json) : list json :=
  match sorted with
  | [] => [a]
  | b :: rest =>
      if String.ltb (archive_time b) (archive_time a)
      then b :: insert_time a rest
      else a :: b :: rest
  end.

Definition sort_time (items : list json) : list json :=
  foldr insert_time [] items.

(** Strictly earlier creation time. *)
Definition time_lt (a b : json) : Prop :=
  String.ltb (archive_time a) (archive_time b) = true.

(** The specification's selection rule: filter out the snapshots, sort the
    remainder by time ascending, take the last. *)
Definition latest_non_snapshot (items sorted : list json) (sel : json) : Prop :=
  sorted ≡ₚ filter (λ a, ¬ is_snapshot a) items ∧
  StronglySorted time_le sorted ∧
  last sorted = Some sel.

(** *** Events of the restore workflow *)

(** The yes/no dialog that asks before the managed directory is deleted. *)
Definition is_confirm (c : Cmd) : Prop :=
  shell c = false ∧
  ∃ question,
    argv c = Dialog.truefalse_command question "Delete directory" "Cancel" false.

Definition confirm_event (ev : Event) : Prop :=
  match ev with EvCheckOutput c _ => is_confirm c | _ => False end.

(** [restic backup --tag snapshot ...] *)
Definition is_snapshot_backup (c : Cmd) : Prop :=
  ∃ rest, argv c = "restic" :: "backup" :: "--tag" :: "snapshot" :: rest.

Definition backup_event (ev : Event) : Prop :=
  match ev with EvRun c _ => is_snapshot_backup c | _ => False end.

(** The script's own changes to the file system. *)
Definition mutates_directory (ev : Event) : Prop :=
  match ev with EvRmtree _ _ | EvMove _ _ _ => True | _ => False end.

Definition exists_event (ev : Event) : Prop :=
  match ev with EvExists _ _ => True | _ => False end.

(** What construction of the configuration may do: read a file, run a secret
    command through a shell, show an input dialog. *)
Definition config_event (ev : Event) : Prop :=
  match ev with
  | EvOpen _ _ => True
  | EvCheckOutput c _ =>
      shell c = true ∨
      (shell c = false ∧
       ∃ title, argv c = Dialog.input_command title "Ok" "Cancel" false)
  | _ => False
  end.

(** What the second half of the workflow may do: show an info box, list the
    archives, run [restic restore], move and remove directories. *)
Definition restoring_event (ev : Event) : Prop :=
  match ev with
  | EvCheckOutput c _ =>
      shell c = false ∧
      ((∃ msg, argv c = Dialog.info_command msg) ∨
       ∃ flags, argv c = "restic" :: "snapshots" :: "--json" :: flags)
  | EvRun c _ => shell c = false ∧ ∃ rest, argv c = "restic" :: "restore" :: rest
  | EvRmtree _ _ | EvMove _ _ _ => True
  | _ => False
  end.

(** A computation all of whose interactions satisfy [P]. *)
Definition emits {A} (P : Event → Prop) (m : M A) : Prop :=
  ∀ w s r s', m w s = (r, s') →
    ∃ new, trace s' = trace s ++ new ∧ Forall P new.

(** The two halves of [restore], after the comments of the source: snapshot
    and delete the existing directory; restore the archive and move it into
    the final location. *)
Definition snapshot_and_delete : M unit :=
  Dialog.info "Creating snapshot archive..." >>
  Restic.create ["snapshot"] >>
  let* directory := Config.get_directory in
  let* shown := lift (Py.format directory) in
  let* confirmed :=
    Dialog.truefalse ("Delete " +:+ dquote +:+ shown +:+ dquote +:+ "?")
      "Delete directory" "Cancel" false in
  (if negb confirmed then raise (RuntimeError "Action cancelled by user")
   else ret ()) >>
  let* directory := Config.get_directory in
  let* path := lift (as_path directory) in
  rmtree path.

Definition restore_and_relocate : M unit :=
  Dialog.info "Restoring latest archive (this may take some time)..." >>
  let* directory := Config.get_directory in
  let* shown := lift (Py.format directory) in
  Restic.restore (shown +:+ ".restic-restore") None >>
  Dialog.info "Moving restored directory into final location..." >>
  let* directory := Config.get_directory in
  let* shown := lift (Py.format directory) in
  let* directory := Config.get_directory in
  let* inner := lift (Py.format directory) in
  let restored := shown +:+ ".restic-restore/" +:+ inner in
  let* directory := Config.get_directory in
  let* path := lift (as_path directory) in
  move restored path >>
  let* directory := Config.get_directory in
  let* shown := lift (Py.format directory) in
  rmtree (shown +:+ ".restic-restore").

(** [Restic.restore] once the id is known: the part after
    [# Restore the archive]. *)
Definition restore_with (tmpdir : string) (id : json) : M unit :=
  let* flags := Config.get_restic_flags "restore" in
  let* flags := lift (Py.iter flags) in
  let command :=
    JArr ([JStr "restic"; JStr "restore"; JStr "--target"; JStr tmpdir]
          ++ flags ++ [id]) in
  let* env := Config.env in
  Command.display (Command.init command env) false.

(** The commands of the workflow on directory [d]. *)
Definition confirm_cmd (w : World) (d : string) : Cmd :=
  plain_cmd w
    (Dialog.truefalse_command ("Delete " +:+ dquote +:+ d +:+ dquote +:+ "?")
       "Delete directory" "Cancel" false) false.

Definition info_cmd (w : World) (msg : string) : Cmd :=
  plain_cmd w (Dialog.info_command msg) false.

(** *** The relocation

    What the second half of the workflow does on the managed directory [d],
    step by step. *)





(** The environment of a started process: the command's own variables, all
    of them strings, laid over [os.environ]. *)
Definition overlays (w : World) (env : gmap string json) (c : Cmd) : Prop :=
  (∀ k v, env !! k = Some v → ∃ text, v = JStr text ∧ penv c !! k = Some text) ∧
  (∀ k, env !! k = None → penv c !! k = os_environ w !! k).

(** No interaction of this kind is a captured process. *)
Definition not_captured (ev : Event) : Prop :=
  match ev with EvCheckOutput _ _ => False | _ => True end.

(** *** Readers

    A computation that only reads the configuration and the world: it logs
    nothing and changes nothing. *)
Definition reads {A} (m : M A) : Prop :=
  ∃ f : World → json → result A, ∀ w s, m w s = (f w (self_config s), s).

(** ** A sample installation

    A concrete world to run the script in: the configuration of the
    specification's end-to-end example, a repository with three archives and
    a [json] library that knows the documents involved. *)

Module Sample.

Definition quoted (s : string) : string := dquote +:+ s +:+ dquote.

(** [json.dumps] on the documents of this sample: no character needs
    escaping and no float occurs in them. *)
Fixpoint dumps (doc : json) : string :=
  match doc with
  | JNull => "null"
  | JBool b => if b then "true" else "false"
  | JInt n => pretty n
  | JFloat _ => "0.0"
  | JStr s => quoted s
  | JArr items => "[" +:+ Py.join ", " (dumps <$> items) +:+ "]"
  | JObj fields =>
      "{" +:+ Py.join ", " ((λ kv, quoted kv.1 +:+ ": " +:+ dumps kv.2) <$> fields)
      +:+ "}"
  end.

Definition config : json :=
  JObj [ ("directory", JStr "/d");
         ("restic", JObj [("pass", JStr "p"); ("repo", JStr "r")]);
         ("s3", JObj [("user", JStr "u"); ("pass", JStr "p2")]) ].

Definition archives : list json :=
  [ archive_record "a" "2024-01-01T00:00:00Z" [];
    archive_record "b" "2024-02-01T00:00:00Z" ["snapshot"];
    archive_record "c" "2024-03-01T00:00:00Z" [] ].

Definition listing : json := JArr archives.

Definition snapshots_only : json :=
  JArr [ archive_record "b" "2024-02-01T00:00:00Z" ["snapshot"] ].

Definition config_with_flags : json :=
  JObj [ ("directory", JStr "/d");
         ("restic", JObj [("pass", JStr "p"); ("repo", JStr "r");
                          ("flags_backup", JArr [JStr "--exclude-caches"])]);
         ("s3", JObj [("user", JStr "u"); ("pass", JStr "p2")]) ].

(** A configuration whose secrets are still to be resolved: one by a
    command, one by a prompt. *)
Definition unresolved : json :=
  JObj [ ("directory", JStr "/d");
         ("restic", JObj [("repo", JStr "r");
                          ("pass_command", JStr "pass show restic")]);
         ("s3", JObj [("user", JStr "u")]) ].

(** A configuration without the repository location. *)
Definition incomplete : json :=
  JObj [ ("directory", JStr "/d");
         ("restic", JObj [("pass", JStr "p")]);
         ("s3", JObj [("user", JStr "u"); ("pass", JStr "p2")]) ].

(** A configuration outside the data model: the passphrase is a number. *)
Definition untyped : json :=
  JObj [ ("directory", JStr "/d");
         ("restic", JObj [("pass", JInt 5); ("repo", JStr "r")]);
         ("s3", JObj [("user", JStr "u"); ("pass", JStr "p2")]) ].

Definition known : list json :=
  [config; config_with_flags; unresolved; untyped; listing; snapshots_only].

(** [json.loads] on the texts of the known documents. *)
Definition loads (text : string) : result json :=
  match list_find (λ doc, dumps doc = text) known with
  | Some (_, doc) => Ok doc
  | None => Raise JSONDecodeError
  end.

Definition is_listing (c : Cmd) : bool :=
  bool_decide (take 2 (argv c) = ["restic"; "snapshots"]).

Definition newline : string := String "010"%char EmptyString.

(** What the programs print: [restic snapshots] the repository, a shell
    command a secret, an input dialog what the user typed. *)
Definition stdout_of (repository : json) (c : Cmd) : string :=
  if is_listing c then dumps repository +:+ newline
  else if shell c then "s3cret" +:+ newline
  else if bool_decide ("--inputbox" ∈ argv c) then "typed"
  else "".

(** Every program exits with status 0; [present] tells whether a path
    exists. *)
Definition installation (environ : gmap string string) (ok : acceptable environ)
    (globals : gmap string pyobj) (repository : json) (present : bool) : World :=
  {| os_environ := environ;
     module_globals := globals;
     json_loads := loads;
     json_dumps := dumps;
     subprocess_check_output := λ _ c, Ok (stdout_of repository c);
     subprocess_run := λ _ _, None;
     open_read := λ _ path, Raise (OSError "No such file or directory");
     os_path_exists := λ _ _, present;
     shutil_rmtree := λ _ _, None;
     shutil_move := λ _ _ _, None;
     environ_ok := ok |}.

(** An environment written out in full is checked by evaluation. *)
Definition checked (environ : gmap string string)
    (ok : bool_decide (acceptable environ)) : acceptable environ :=
  bool_decide_unpack _ ok.

Definition bare : acceptable ∅ := checked ∅ I.

(** The configuration comes from the module variable [CONFIG]. *)
Definition world : World :=
  installation ∅ bare {[ "CONFIG" := PyData (JStr (dumps config)) ]} listing false.

Definition untyped_world : World :=
  installation ∅ bare {[ "CONFIG" := PyData (JStr (dumps untyped)) ]}
    listing false.

Definition unresolved_world : World :=
  installation ∅ bare {[ "CONFIG" := PyData (JStr (dumps unresolved)) ]}
    listing false.

(** The configuration comes inline in [RESTIC_EZ_CONFIG], as a delegated
    process finds it. *)
Definition inline_environ : gmap string string :=
  {[ "RESTIC_EZ_CONFIG" := dumps config ]}.

Definition inline_world : World :=
  installation inline_environ (checked inline_environ I) ∅ listing false.

(** The configuration is to come from a file. *)
Definition file_environ : gmap string string :=
  {[ "RESTIC_EZ_CONFIG_FILE" := "/etc/restic-ez.json" ]}.

Definition file_world : World :=
  installation file_environ (checked file_environ I) ∅ listing false.

(** The world of a process that the script starts: the environment is the
    one the builder derives from [config]. *)
Definition delegated_environ : gmap string string :=
  list_to_map
    [ ("RESTIC_EZ_CONFIG", dumps config); ("DIRECTORY", "/d");
      ("RESTIC_PASSWORD", "p"); ("RESTIC_REPOSITORY", "r");
      ("AWS_ACCESS_KEY_ID", "u"); ("AWS_SECRET_ACCESS_KEY", "p2") ].

Definition delegated_world : World :=
  installation delegated_environ (checked delegated_environ I) ∅ listing false.

(** The managed directory exists. *)
Definition present_world : World :=
  installation ∅ bare {[ "CONFIG" := PyData (JStr (dumps config)) ]} listing true.

(** The same world with a user who answers every yes/no dialog with no:
    [dialog] exits with status 1. *)
Definition declining (w : World) : World :=
  {| os_environ := os_environ w;
     module_globals := module_globals w;
     json_loads := json_loads w;
     json_dumps := json_dumps w;
     subprocess_check_output :=
       λ t c, if bool_decide ("--yesno" ∈ argv c)
              then Raise (CalledProcessError 1)
              else subprocess_check_output w t c;
     subprocess_run := subprocess_run w;
     open_read := open_read w;
     os_path_exists := os_path_exists w;
     shutil_rmtree := shutil_rmtree w;
     shutil_move := shutil_move w;
     environ_ok := environ_ok w |}.

Definition declining_world : World := declining present_world.

(** A repository in which two archives share the latest timestamp. *)
Definition tied : list json :=
  [ archive_record "a" "2024-03-01T00:00:00Z" [];
    archive_record "s" "2024-04-01T00:00:00Z" ["snapshot"];
    archive_record "b" "2024-03-01T00:00:00Z" [] ].

Definition tied_world : World :=
  {| os_environ := ∅;
     module_globals := ∅;
     json_loads :=
       λ text, if bool_decide (text = dumps (JArr tied)) then Ok (JArr tied)
               else loads text;
     json_dumps := dumps;
     subprocess_check_output := λ _ c, Ok (stdout_of (JArr tied) c);
     subprocess_run := λ _ _, None;
     open_read := λ _ path, Raise (OSError "No such file or directory");
     os_path_exists := λ _ _, false;
     shutil_rmtree := λ _ _, None;
     shutil_move := λ _ _ _, None;
     environ_ok := bare |}.

(** States in which a configuration has been loaded. *)
Definition loaded (doc : json) : State := {| self_config := doc; trace := [] |}.

End Sample.

(** * Properties *)

(** ** Running the monad *)

Lemma bind_run {A B} (m : M A) (k : A → M B) w s :
  bind m k w s =
  match m w s with
  | (inl e, s') => (inl e, s')
  | (inr a, s') => k a w s'
  end.
Proof. reflexivity. Qed.

Lemma bind_lift {A B} (r : result A) (k : A → M B) w s :
  bind (lift r) k w s =
  match r with inl e => (inl e, s) | inr a => k a w s end.
Proof. by destruct r. Qed.

Lemma bind_lift_ok {A B} (r : result A) (k : A → M B) w s a :
  r = Ok a → bind (lift r) k w s = k a w s.
Proof. by intros ->. Qed.

Lemma bind_lift_raise {A B} (r : result A) (k : A → M B) w s e :
  r = Raise e → bind (lift r) k w s = (Raise e, s).
Proof. by intros ->. Qed.

Lemma bind_lift_Ok {A B} (a : A) (k : A → M B) w s :
  bind (lift (Ok a)) k w s = k a w s.
Proof. reflexivity. Qed.

Lemma bind_lift_Raise {A B} (e : exn) (k : A → M B) w s :
  bind (lift (Raise e)) k w s = (Raise e, s).
Proof. reflexivity. Qed.

Lemma bind_ok {A B} (m : M A) (k : A → M B) w s a s1 :
  m w s = (Ok a, s1) → bind m k w s = k a w s1.
Proof. intros H. by rewrite bind_run, H. Qed.

Lemma bind_raise {A B} (m : M A) (k : A → M B) w s e s1 :
  m w s = (Raise e, s1) → bind m k w s = (Raise e, s1).
Proof. intros H. by rewrite bind_run, H. Qed.

Lemma bind_inv {A B} (m : M A) (k : A → M B) w s r s' :
  bind m k w s = (r, s') →
  (∃ e, m w s = (Raise e, s') ∧ r = Raise e) ∨
  (∃ a s1, m w s = (Ok a, s1) ∧ k a w s1 = (r, s')).
Proof.
  rewrite bind_run. destruct (m w s) as [[e|a] s1]; intros H.
  - left. exists e. by simplify_eq.
  - right. by exists a, s1.
Qed.

Lemma bind_bind {A B C} (m : M A) (f : A → M B) (k : B → M C) w s :
  bind (bind m f) k w s = bind m (λ a, bind (f a) k) w s.
Proof. rewrite !bind_run. by destruct (m w s) as [[e|a] s1]. Qed.

Lemma bind_ret {A B} (a : A) (k : A → M B) w s : bind (ret a) k w s = k a w s.
Proof. reflexivity. Qed.

Lemma bind_raise_now {A B} (e : exn) (k : A → M B) w s :
  bind (raise e) k w s = (Raise e, s).
Proof. reflexivity. Qed.

Lemma bind_world {B} (k : World → M B) w s : bind world k w s = k w w s.
Proof. reflexivity. Qed.

Lemma bind_get_config {B} (k : json → M B) w s :
  bind get_config k w s = k (self_config s) w s.
Proof. reflexivity. Qed.

Lemma bind_set_config {B} (doc : json) (k : unit → M B) w s :
  bind (set_config doc) k w s
  = k () w {| self_config := doc; trace := trace s |}.
Proof. reflexivity. Qed.

Lemma surjective_pairing_ok {A} (p : result A * State) (a : A) :
  p.1 = Ok a → p = (Ok a, p.2).
Proof. destruct p as [r s]. simpl. by intros ->. Qed.

(** One step of symbolic execution at the head of a run. *)
Ltac mstep :=
  first
    [ rewrite bind_bind
    | rewrite bind_ret
    | rewrite bind_world
    | rewrite bind_get_config
    | rewrite bind_set_config
    | rewrite bind_raise_now
    | rewrite bind_lift_Ok
    | rewrite bind_lift_Raise ].

(** Use a known outcome of a pure operation at the head of a run. *)
Ltac mlift H :=
  first [ rewrite (bind_lift_ok _ _ _ _ _ H)
        | rewrite (bind_lift_raise _ _ _ _ _ H) ].

(** Split on the outcome of the pure operation at the head of a run. *)
Ltac mcase E :=
  rewrite bind_lift;
  match goal with
  | |- context [match ?r with inl _ => _ | inr _ => _ end] =>
      let e := fresh "e" in
      let a := fresh "a" in
      destruct r as [e|a] eqn:E
  end.

(** ** Dictionaries *)

Lemma assoc_set_eq key v fields : Py.assoc key (Py.assoc_set key v fields) = Some v.
Proof.
  induction fields as [|[k v0] rest IH]; simpl.
  - by rewrite bool_decide_true.
  - case_bool_decide; simpl; [by rewrite bool_decide_true|].
    by rewrite bool_decide_false.
Qed.

Lemma assoc_set_ne key other v fields :
  key ≠ other → Py.assoc other (Py.assoc_set key v fields) = Py.assoc other fields.
Proof.
  intros Hne. induction fields as [|[k v0] rest IH]; simpl.
  - by rewrite bool_decide_false.
  - case_bool_decide as Hk; simpl.
    + subst k. by rewrite !bool_decide_false.
    + by rewrite IH.
Qed.

Lemma getitem_setitem_eq obj key v obj' :
  Py.setitem obj key v = Ok obj' → Py.getitem obj' key = Ok v.
Proof.
  destruct obj; try done. intros [= <-]. simpl. by rewrite assoc_set_eq.
Qed.

Lemma getitem_setitem_ne obj key other v obj' :
  Py.setitem obj key v = Ok obj' → key ≠ other →
  Py.getitem obj' other = Py.getitem obj other.
Proof.
  destruct obj; try done. intros [= <-] Hne. simpl. by rewrite assoc_set_ne.
Qed.

Lemma setitem_mapping obj key v fields :
  Py.getitem obj key = Ok (JObj fields) → ∃ obj', Py.setitem obj key v = Ok obj'.
Proof. destruct obj; try done. by eexists. Qed.

(** ** Processes *)

Lemma bind_check_output {B} (c : Cmd) (k : string → M B) w s :
  bind (check_output c) k w s =
  match subprocess_check_output w (trace s) c with
  | inl e => (inl e, log (EvCheckOutput c (inl e)) s)
  | inr out => k out w (log (EvCheckOutput c (inr out)) s)
  end.
Proof.
  rewrite bind_run. unfold check_output.
  by destruct (subprocess_check_output w (trace s) c).
Qed.

Lemma as_strings_strs (args : list string) :
  forallb nul_free args = true → as_strings (JStr <$> args) = Ok args.
Proof.
  induction args as [|a args IH]; csimpl; [done|].
  intros [Ha Hargs]%andb_prop. rewrite Ha, IH; done.
Qed.

Lemma as_strings_strs_inv (args l : list string) :
  as_strings (JStr <$> args) = Ok l → l = args ∧ forallb nul_free args = true.
Proof.
  revert l. induction args as [|a args IH]; intros l; csimpl.
  - by intros [= <-].
  - destruct (nul_free a); [|done].
    destruct (as_strings (JStr <$> args)) as [|rest]; [done|].
    intros [= <-]. by destruct (IH rest eq_refl) as [-> ->].
Qed.

Lemma as_strings_refused (args : list string) :
  forallb nul_free args = false →
  as_strings (JStr <$> args) = Raise (ValueError "embedded null byte").
Proof.
  induction args as [|a args IH]; csimpl; [done|].
  destruct (nul_free a); [|done]. simpl. intros Hargs. by rewrite IH.
Qed.

Lemma as_strings_plain (items : list json) (args : list string) :
  as_strings items = Ok args →
  items = JStr <$> args ∧ forallb nul_free args = true.
Proof.
  revert args. induction items as [|v items IH]; intros args; simpl.
  - by intros [= <-].
  - destruct v as [| | | |a| |]; try done.
    destruct (nul_free a) eqn:Ha; [|done].
    destruct (as_strings items) as [|rest]; [done|].
    intros [= <-]. destruct (IH rest eq_refl) as [-> Hrest].
    split; [done|]. simpl. by rewrite Ha.
Qed.

Lemma exported_env_empty (environ : gmap string string) :
  exported_env environ ∅ = JStr <$> environ.
Proof. unfold exported_env. by rewrite (left_id_L ∅ (∪)). Qed.

Lemma omap_str_of_fmap (environ : gmap string string) :
  omap str_of (JStr <$> environ) = environ.
Proof.
  apply map_eq. intros k. rewrite lookup_omap, lookup_fmap.
  by destruct (environ !! k).
Qed.

(** The ambient environment alone is always accepted. *)
Lemma merged_env_empty (w : World) : merged_env (os_environ w) ∅ = Ok (os_environ w).
Proof.
  pose proof (environ_ok w) as Hok.
  unfold merged_env. rewrite exported_env_empty. unfold env_list.
  rewrite bool_decide_true.
  - simpl. rewrite omap_str_of_fmap. unfold envp.
    rewrite bool_decide_true; [done|].
    intros k v Hk. specialize (Hok k v Hk). simpl in Hok.
    destruct (legal_name k); [|done]. exact Hok.
  - intros k v. rewrite lookup_fmap.
    destruct (os_environ w !! k) as [text|] eqn:Hk; [|done]. intros [= <-].
    specialize (Hok k text Hk). simpl in *.
    destruct (legal_name k); [done|]. by destruct Hok.
Qed.

Lemma prepare_state self sh w s : (Command.prepare self sh w s).2 = s.
Proof.
  unfold Command.prepare. mstep.
  rewrite bind_lift. destruct (arguments _); [done|].
  rewrite bind_lift. destruct (executable _ _); [done|].
  rewrite bind_lift. destruct (env_list _); [done|].
  rewrite bind_lift. destruct (as_strings _); [done|].
  rewrite bind_lift. by destruct (envp _).
Qed.

Lemma prepare_pure self sh w s : ∃ r, Command.prepare self sh w s = (r, s).
Proof.
  exists (Command.prepare self sh w s).1.
  rewrite <-(prepare_state self sh w s) at 3. by destruct (Command.prepare _ _ _ _).
Qed.

(** What an accepted call starts. *)
Lemma prepare_inv self sh c w s :
  Command.prepare self sh w s = (Ok c, s) →
  ∃ items,
    arguments (Command._command self) = Ok items ∧
    executable sh items = Ok () ∧
    as_strings items = Ok (argv c) ∧ shell c = sh ∧
    merged_env (os_environ w) (Command._env self) = Ok (penv c).
Proof.
  unfold Command.prepare. mstep.
  mcase Hitems; [done|]. rename a into items.
  mcase Hexe; [done|]. destruct a.
  mcase Hloop; [done|]. rename a into listed.
  mcase Hargs; [done|]. rename a into args.
  mcase Hblock; [done|]. intros [= <-]. simpl.
  exists items. do 4 (split; [done|]).
  unfold merged_env. by rewrite Hloop.
Qed.

Lemma executable_ok sh items args :
  as_strings items = Ok args → sh = true ∨ args ≠ [] → executable sh items = Ok ().
Proof.
  intros Hargs [->|Hne]; [done|].
  apply as_strings_plain in Hargs as [-> _].
  destruct sh; [done|]. by destruct args.
Qed.

Lemma prepare_ok self sh items args penv0 w s :
  arguments (Command._command self) = Ok items →
  as_strings items = Ok args →
  sh = true ∨ args ≠ [] →
  merged_env (os_environ w) (Command._env self) = Ok penv0 →
  Command.prepare self sh w s
  = (Ok {| argv := args; shell := sh; penv := penv0 |}, s).
Proof.
  intros Hitems Hargs Hexe Henv. unfold Command.prepare. mstep.
  mlift Hitems. rewrite (bind_lift_ok _ _ _ _ ()) by by eapply executable_ok.
  unfold merged_env in Henv.
  destruct (env_list _) as [|listed] eqn:Hloop; [done|]. simpl in Henv.
  mstep. mlift Hargs. by mlift Henv.
Qed.

Lemma prepare_plain (args : list string) sh w s :
  forallb nul_free args = true → sh = true ∨ args ≠ [] →
  Command.prepare (Command.init (JArr (JStr <$> args)) ∅) sh w s
  = (Ok (plain_cmd w args sh), s).
Proof.
  intros Hargs Hexe.
  apply (prepare_ok _ _ (JStr <$> args)); [done| |done|apply merged_env_empty].
  by apply as_strings_strs.
Qed.

Lemma prepare_plain_inv (args : list string) sh c w s :
  Command.prepare (Command.init (JArr (JStr <$> args)) ∅) sh w s = (Ok c, s) →
  c = plain_cmd w args sh ∧ forallb nul_free args = true.
Proof.
  intros (items & Hitems & _ & Hargs & Hsh & Henv)%prepare_inv.
  simpl in Hitems, Henv. injection Hitems as <-.
  apply as_strings_strs_inv in Hargs as [Hargv Hfree].
  rewrite merged_env_empty in Henv. injection Henv as Henv.
  split; [|done]. destruct c. unfold plain_cmd. simpl in *. congruence.
Qed.

Lemma prepare_secret (text : string) w s :
  nul_free text = true →
  Command.prepare (Command.init (JStr text) ∅) true w s
  = (Ok (secret_command w text), s).
Proof.
  intros Htext. apply (prepare_plain [text]); [|by left].
  simpl. by rewrite Htext.
Qed.

Lemma capture_run self sh trim c w s :
  Command.prepare self sh w s = (Ok c, s) →
  Command.capture self sh trim w s =
  (rbind (subprocess_check_output w (trace s) c)
     (λ out, Ok (if trim then Py.strip out else out)),
   log (EvCheckOutput c (subprocess_check_output w (trace s) c)) s).
Proof.
  intros Hprep. unfold Command.capture.
  rewrite (bind_ok _ _ _ _ _ _ Hprep), bind_check_output.
  by destruct (subprocess_check_output w (trace s) c).
Qed.

Lemma capture_unprepared self sh trim e w s :
  Command.prepare self sh w s = (Raise e, s) →
  Command.capture self sh trim w s = (Raise e, s).
Proof. intros Hprep. unfold Command.capture. by rewrite (bind_raise _ _ _ _ _ _ Hprep). Qed.

(** ** Dialogs *)

(** A dialog whose texts hold no NUL is one captured process; any other is
    refused before it starts. *)
Lemma dialog_run (args : list string) w s :
  args ≠ [] →
  Command.capture (Command.init (JArr (JStr <$> args)) ∅) false true w s =
  if forallb nul_free args
  then (rbind (subprocess_check_output w (trace s) (plain_cmd w args false))
          (λ out, Ok (Py.strip out)),
        log (EvCheckOutput (plain_cmd w args false)
               (subprocess_check_output w (trace s) (plain_cmd w args false))) s)
  else (Raise (ValueError "embedded null byte"), s).
Proof.
  intros Hne. destruct (forallb nul_free args) eqn:Hargs.
  - apply capture_run, prepare_plain; auto.
  - apply capture_unprepared. unfold Command.prepare, Command.init; simpl.
    do 2 mstep. rewrite (bind_lift_ok _ _ _ _ ()) by by destruct args.
    rewrite exported_env_empty.
    pose proof (merged_env_empty w) as Henv. unfold merged_env in Henv.
    rewrite exported_env_empty in Henv.
    destruct (env_list _) as [|listed]; [done|]. mstep.
    by rewrite (bind_lift_raise _ _ _ _ _ (as_strings_refused _ Hargs)).
Qed.

Lemma input_run title true_ false_ default w s :
  let args := Dialog.input_command title true_ false_ default in
  let c := plain_cmd w args false in
  let r := subprocess_check_output w (trace s) c in
  Dialog.input title true_ false_ default w s =
  if forallb nul_free args
  then (match r with
        | inr out => Ok (Py.strip out)
        | inl _ => Raise (RuntimeError "Action cancelled by user")
        end, log (EvCheckOutput c r) s)
  else (Raise (RuntimeError "Action cancelled by user"), s).
Proof.
  intros args c r. unfold Dialog.input, catch.
  fold args. rewrite (dialog_run args) by done.
  destruct (forallb nul_free args); [|done].
  fold c r. by destruct r.
Qed.

(** ** The flags accessor *)

Section flags.
Context (w : World) (s : State) (context : string).
Context (fields : list (string * json)).
Hypothesis restic_section : Py.getitem (self_config s) "restic" = Ok (JObj fields).

Lemma get_restic_flags_run :
  Config.get_restic_flags context w s =
  (Ok (default (JArr []) (Py.assoc ("flags_" +:+ context) fields)), s).
Proof.
  unfold Config.get_restic_flags.
  mstep. mlift restic_section. rewrite bind_lift. simpl.
  by destruct (Py.assoc _ fields) as [v|] eqn:E.
Qed.

End flags.

(** C5.  When the [restic] section has no [flags_<context>] key the accessor
    returns the empty list, raises nothing and changes nothing; when the key
    is there it returns the stored value. *)
Theorem get_restic_flags_default (w : World) (s : State) (context : string)
    (fields : list (string * json)) :
  Py.getitem (self_config s) "restic" = Ok (JObj fields) →
  (Py.assoc ("flags_" +:+ context) fields = None →
   Config.get_restic_flags context w s = (Ok (JArr []), s)) ∧
  (∀ flags, Py.assoc ("flags_" +:+ context) fields = Some flags →
   Config.get_restic_flags context w s = (Ok flags, s)).
Proof.
  intros Hsec. split.
  - intros Hnone. by rewrite (get_restic_flags_run _ _ _ _ Hsec), Hnone.
  - intros flags Hsome. by rewrite (get_restic_flags_run _ _ _ _ Hsec), Hsome.
Qed.

Example get_restic_flags_default_witness :
  Config.get_restic_flags "restore" Sample.world (Sample.loaded Sample.config)
  = (Ok (JArr []), Sample.loaded Sample.config) ∧
  Config.get_restic_flags "backup" Sample.world
    (Sample.loaded Sample.config_with_flags)
  = (Ok (JArr [JStr "--exclude-caches"]), Sample.loaded Sample.config_with_flags).
Proof.
  split.
  - apply (proj1 (get_restic_flags_default Sample.world
                    (Sample.loaded Sample.config) "restore"
                    [("pass", JStr "p"); ("repo", JStr "r")] eq_refl)).
    reflexivity.
  - apply (proj2 (get_restic_flags_default Sample.world
                    (Sample.loaded Sample.config_with_flags) "backup"
                    [("pass", JStr "p"); ("repo", JStr "r");
                     ("flags_backup", JArr [JStr "--exclude-caches"])] eq_refl)).
    reflexivity.
Defined.

(** ** The environment builder *)

Section env.
Context (w : World) (s : State).
Context (directory restic s3 restic_pass restic_repo s3_user s3_pass : json).
Hypothesis has_directory : Py.getitem (self_config s) "directory" = Ok directory.
Hypothesis has_restic : Py.getitem (self_config s) "restic" = Ok restic.
Hypothesis has_restic_pass : Py.getitem restic "pass" = Ok restic_pass.
Hypothesis has_restic_repo : Py.getitem restic "repo" = Ok restic_repo.
Hypothesis has_s3 : Py.getitem (self_config s) "s3" = Ok s3.
Hypothesis has_s3_user : Py.getitem s3 "user" = Ok s3_user.
Hypothesis has_s3_pass : Py.getitem s3 "pass" = Ok s3_pass.

Lemma env_run :
  Config.env w s =
  (Ok (env_of (json_dumps w (self_config s))
         directory restic_pass restic_repo s3_user s3_pass), s).
Proof using All.
  unfold Config.env, Config.get_directory.
  do 4 mstep. mlift has_directory. mlift has_restic. mlift has_restic_pass.
  mlift has_restic_repo. mlift has_s3. mlift has_s3_user. mlift has_s3_pass.
  reflexivity.
Qed.

End env.

(** C6.  On a configuration that has its five fields, the environment
    builder returns the mapping with exactly the six documented keys, each
    bound to the documented value, and leaves the configuration and the log
    as they were. *)
Theorem env_exact (w : World) (s : State)
    (directory restic s3 restic_pass restic_repo s3_user s3_pass : json) :
  Py.getitem (self_config s) "directory" = Ok directory →
  Py.getitem (self_config s) "restic" = Ok restic →
  Py.getitem restic "pass" = Ok restic_pass →
  Py.getitem restic "repo" = Ok restic_repo →
  Py.getitem (self_config s) "s3" = Ok s3 →
  Py.getitem s3 "user" = Ok s3_user →
  Py.getitem s3 "pass" = Ok s3_pass →
  ∃ m : gmap string json,
    Config.env w s = (Ok m, s) ∧
    dom m = env_keys ∧
    m !! "RESTIC_EZ_CONFIG" = Some (JStr (json_dumps w (self_config s))) ∧
    m !! "DIRECTORY" = Some directory ∧
    m !! "RESTIC_PASSWORD" = Some restic_pass ∧
    m !! "RESTIC_REPOSITORY" = Some restic_repo ∧
    m !! "AWS_ACCESS_KEY_ID" = Some s3_user ∧
    m !! "AWS_SECRET_ACCESS_KEY" = Some s3_pass.
Proof.
  intros Hd Hr Hrp Hrr Hs Hsu Hsp.
  exists (env_of (json_dumps w (self_config s))
            directory restic_pass restic_repo s3_user s3_pass).
  split; [by eapply env_run|].
  split; [unfold env_of, env_keys; rewrite !dom_insert_L, dom_empty_L; set_solver|].
  unfold env_of. by simplify_map_eq.
Qed.

Example env_exact_witness :
  ∃ m : gmap string json,
    Config.env Sample.world (Sample.loaded Sample.config)
    = (Ok m, Sample.loaded Sample.config) ∧
    dom m = env_keys ∧
    m !! "RESTIC_EZ_CONFIG" = Some (JStr (Sample.dumps Sample.config)) ∧
    m !! "DIRECTORY" = Some (JStr "/d") ∧
    m !! "RESTIC_PASSWORD" = Some (JStr "p") ∧
    m !! "RESTIC_REPOSITORY" = Some (JStr "r") ∧
    m !! "AWS_ACCESS_KEY_ID" = Some (JStr "u") ∧
    m !! "AWS_SECRET_ACCESS_KEY" = Some (JStr "p2").
Proof.
  exact (env_exact Sample.world (Sample.loaded Sample.config)
           (JStr "/d")
           (JObj [("pass", JStr "p"); ("repo", JStr "r")])
           (JObj [("user", JStr "u"); ("pass", JStr "p2")])
           (JStr "p") (JStr "r") (JStr "u") (JStr "p2")
           eq_refl eq_refl eq_refl eq_refl eq_refl eq_refl eq_refl).
Defined.

(** ** Configuration sources *)

(** The first branch of [__init__] reads [os.environ[env]], and the module
    defines no [env]. *)
Lemma init_inline_source (env_json env_file var : string) w s :
  env_json ∈ dom (os_environ w) →
  module_globals w !! "env" = None →
  Config.__init__ env_json env_file var w s = (Raise (NameError "env"), s).
Proof.
  intros Hset Hname. unfold Config.__init__.
  mstep. rewrite bool_decide_true by done.
  unfold Config.lookup_name. do 3 mstep. by rewrite Hname.
Qed.

Lemma init_no_source w s :
  "RESTIC_EZ_CONFIG" ∉ dom (os_environ w) →
  "RESTIC_EZ_CONFIG_FILE" ∉ dom (os_environ w) →
  module_globals w !! "CONFIG" = None →
  Config.new w s = (Raise ConfigSourceError, s).
Proof.
  intros H1 H2 H3. unfold Config.new, Config.__init__.
  mstep. rewrite !bool_decide_false by done. by rewrite H3.
Qed.

(** C3, as the script behaves: with [RESTIC_EZ_CONFIG] set to a valid
    document, and no global [env], construction raises [NameError]; the
    document does not become the configuration. *)
Theorem inline_source_raises_NameError (w : World) (s : State)
    (text : string) (doc : json) :
  os_environ w !! "RESTIC_EZ_CONFIG" = Some text →
  json_loads w text = Ok doc →
  module_globals w !! "env" = None →
  Config.new w s = (Raise (NameError "env"), s).
Proof.
  intros Hset _ Hname. apply init_inline_source; [|done].
  apply elem_of_dom. by exists text.
Qed.

Example inline_source_raises_NameError_witness :
  Config.new Sample.inline_world initial = (Raise (NameError "env"), initial).
Proof.
  exact (inline_source_raises_NameError Sample.inline_world initial
           (Sample.dumps Sample.config) Sample.config
           eq_refl eq_refl eq_refl).
Defined.

(** An accepted environment is the overlay, entry by entry. *)
Lemma merged_env_inv environ (env : gmap string json) merged :
  merged_env environ env = Ok merged →
  merged = omap str_of (exported_env environ env) ∧
  map_Forall (λ k v, legal_name k && Py.is_str v) (exported_env environ env) ∧
  map_Forall (λ k v, nul_free k && nul_free v) merged.
Proof.
  unfold merged_env, env_list. case_bool_decide as Hloop.
  - simpl. unfold envp. case_bool_decide as Hblock; [|done]. by intros [= <-].
  - by repeat case_bool_decide.
Qed.

Lemma exported_env_lookup environ (env : gmap string json) key :
  exported_env environ env !! key =
  match env !! key with Some v => Some v | None => JStr <$> environ !! key end.
Proof.
  unfold exported_env. rewrite lookup_union, lookup_fmap.
  destruct (env !! key), (environ !! key); done.
Qed.

(** The environment a delegated process receives contains every variable of
    the overlay. *)
Lemma merged_env_lookup environ (env : gmap string json) merged key v :
  merged_env environ env = Ok merged →
  env !! key = Some v →
  ∃ text, v = JStr text ∧ merged !! key = Some text.
Proof.
  intros (-> & Hloop & _)%merged_env_inv Hkey.
  assert (exported_env environ env !! key = Some v) as Hex
    by by rewrite exported_env_lookup, Hkey.
  specialize (Hloop key v Hex). simpl in Hloop.
  apply andb_True in Hloop as [_ Hstr]. destruct v; try done.
  eexists; split; [done|]. by rewrite lookup_omap, Hex.
Qed.

(** C7, as the script behaves: a process started with the environment that
    the builder derives from a resolved configuration cannot reload it;
    construction raises [NameError] before any document is parsed. *)
Theorem reload_raises_NameError (w w' : World) (s s0 : State)
    (env : gmap string json) :
  Config.env w s = (Ok env, s) →
  merged_env (os_environ w) env = Ok (os_environ w') →
  module_globals w' !! "env" = None →
  Config.new w' s0 = (Raise (NameError "env"), s0).
Proof.
  intros Henv Hmerged Hname. apply init_inline_source; [|done].
  assert (∃ dumped, env !! "RESTIC_EZ_CONFIG" = Some (JStr dumped)) as [d Hd].
  { revert Henv. unfold Config.env, Config.get_directory.
    do 4 mstep.
    do 7 (mcase E; [done|]; clear E).
    intros [= <-]. eexists. unfold list_to_map; simpl. apply lookup_insert_eq. }
  destruct (merged_env_lookup _ _ _ _ _ Hmerged Hd) as (text & _ & Hlook).
  apply elem_of_dom. by exists text.
Qed.

Example reload_raises_NameError_witness :
  Config.new Sample.delegated_world initial = (Raise (NameError "env"), initial).
Proof.
  apply (reload_raises_NameError Sample.world Sample.delegated_world
           (Sample.loaded Sample.config) initial
           (env_of (Sample.dumps Sample.config)
              (JStr "/d") (JStr "p") (JStr "r") (JStr "u") (JStr "p2"))).
  - reflexivity.
  - vm_compute. reflexivity.
  - reflexivity.
Defined.

(** ** Secret fields *)

Lemma store_run section name value fields w s :
  Py.getitem (self_config s) section = Ok (JObj fields) →
  ∃ doc',
    Config.store section name value w s
    = (Ok (), {| self_config := doc'; trace := trace s |}) ∧
    Py.getitem doc' section = Ok (JObj (Py.assoc_set name value fields)) ∧
    ∀ other, section ≠ other →
      Py.getitem doc' other = Py.getitem (self_config s) other.
Proof.
  intros Hsec.
  destruct (setitem_mapping _ _ (JObj (Py.assoc_set name value fields)) _ Hsec)
    as [doc' Hdoc'].
  exists doc'. split; [|split].
  - unfold Config.store. mstep. mlift Hsec. simpl. mstep. by mlift Hdoc'.
  - by eapply getitem_setitem_eq.
  - intros other Hne. by eapply getitem_setitem_ne.
Qed.

Lemma field_of_stored doc section name value fields :
  Py.getitem doc section = Ok (JObj (Py.assoc_set name value fields)) →
  field_of doc section name = Ok value.
Proof. intros H. unfold field_of. rewrite H. simpl. by rewrite assoc_set_eq. Qed.

(** *** Trimming *)

Lemma chars_app s1 s2 : String.list_ascii_of_string (s1 +:+ s2) = String.list_ascii_of_string s1 ++ String.list_ascii_of_string s2.
Proof. induction s1 as [|c s1 IH]; simpl; [done|]. by rewrite IH. Qed.

Lemma chars_rev_app s1 s2 :
  String.list_ascii_of_string (String.rev_app s1 s2) = reverse (String.list_ascii_of_string s1) ++ String.list_ascii_of_string s2.
Proof.
  revert s2. induction s1 as [|c s1 IH]; intros s2; simpl; [done|].
  by rewrite IH, reverse_cons, <-app_assoc.
Qed.

Lemma chars_rev s : String.list_ascii_of_string (String.rev s) = reverse (String.list_ascii_of_string s).
Proof. unfold String.rev. by rewrite chars_rev_app, app_nil_r. Qed.

Lemma chars_inj s1 s2 : String.list_ascii_of_string s1 = String.list_ascii_of_string s2 → s1 = s2.
Proof.
  intros H. rewrite <-(String.string_of_list_ascii_of_string s1), H.
  apply String.string_of_list_ascii_of_string.
Qed.

Lemma rev_rev s : String.rev (String.rev s) = s.
Proof. apply chars_inj. by rewrite !chars_rev, reverse_involutive. Qed.

Lemma rev_append s1 s2 :
  String.rev (s1 +:+ s2) = String.rev s2 +:+ String.rev s1.
Proof.
  apply chars_inj. by rewrite chars_rev, !chars_app, reverse_app, !chars_rev.
Qed.

Lemma blank_rev s : blank s → blank (String.rev s).
Proof. unfold blank. rewrite chars_rev. apply Forall_reverse. Qed.

Lemma lstrip_split s : ∃ before, s = before +:+ Py.lstrip s ∧ blank before.
Proof.
  induction s as [|c s (before & Hs & Hblank)].
  - exists "". split; [done|constructor].
  - simpl. destruct (Py.is_space c) eqn:Hc.
    + exists (String c before). split.
      { change (String c s = String c (before +:+ Py.lstrip s)). by f_equal. }
      constructor; [by rewrite Hc|done].
    + exists "". split; [done|constructor].
Qed.

Lemma lstrip_head s c rest : Py.lstrip s = String c rest → ¬ Py.is_space c.
Proof.
  induction s as [|a s IH]; [done|]. simpl.
  destruct (Py.is_space a) eqn:Ha; [done|]. intros [= <- _]. rewrite Ha. exact id.
Qed.

(** [str.strip] trims. *)
Lemma strip_trimmed text : trimmed text (Py.strip text).
Proof.
  unfold Py.strip.
  destruct (lstrip_split text) as (before & Htext & Hbefore).
  destruct (lstrip_split (String.rev (Py.lstrip text))) as (tail & Hrev & Htail).
  set (secret := String.rev (Py.lstrip (String.rev (Py.lstrip text)))).
  assert (Py.lstrip text = secret +:+ String.rev tail) as Hsplit.
  { rewrite <-(rev_rev (Py.lstrip text)). rewrite Hrev at 1.
    by rewrite rev_append. }
  split; [|split].
  - exists before, (String.rev tail). split; [|split].
    + by rewrite <-Hsplit.
    + done.
    + by apply blank_rev.
  - intros c rest Hsecret. apply (lstrip_head text c (rest +:+ String.rev tail)).
    by rewrite Hsplit, Hsecret.
  - intros c rest. unfold secret. rewrite rev_rev. apply lstrip_head.
Qed.

(** *** One field *)

Lemma input_command_free title :
  forallb nul_free (Dialog.input_command title "Ok" "Cancel" false)
  = nul_free title.
Proof.
  change (Dialog.input_command title "Ok" "Cancel" false)
    with ([ "dialog"; "--stdout"; "--clear"; "--ok-label"; "Ok";
            "--cancel-label"; "Cancel"; "--default-button"; "Cancel";
            "--inputbox" ] ++ [title] ++ ["0"; "0"]).
  rewrite !forallb_app. cbn [forallb]. by rewrite !andb_true_r.
Qed.

Section eval_field.
Context (w : World) (s : State) (section name : string).
Context (fields : list (string * json)).
Hypothesis mapping : Py.getitem (self_config s) section = Ok (JObj fields).

Lemma eval_field_literal v :
  Py.assoc name fields = Some v →
  Config._eval_field section name w s = (Ok (), s).
Proof using mapping.
  intros Hv. unfold Config._eval_field. mstep. mlift mapping.
  rewrite bind_lift. simpl. by rewrite Hv.
Qed.

(** What a successful capture does to the field. *)
Definition resolved_to (c : Cmd) (out : string) : Prop :=
  ∃ doc',
    Config._eval_field section name w s
    = (Ok (), {| self_config := doc';
                 trace := trace s ++ [EvCheckOutput c (Ok out)] |}) ∧
    Py.getitem doc' section
    = Ok (JObj (Py.assoc_set name (JStr (Py.strip out)) fields)) ∧
    ∀ other, section ≠ other →
      Py.getitem doc' other = Py.getitem (self_config s) other.

Lemma eval_field_command text out :
  Py.assoc name fields = None →
  Py.assoc (name +:+ "_command") fields = Some (JStr text) →
  nul_free text = true →
  subprocess_check_output w (trace s) (secret_command w text) = Ok out →
  resolved_to (secret_command w text) out.
Proof using mapping.
  intros Hnone Hcmd Hfree Hout.
  destruct (store_run section name (JStr (Py.strip out)) fields w
              (log (EvCheckOutput (secret_command w text) (Ok out)) s) mapping)
    as (doc' & Hstore & Hsec & Hother).
  exists doc'. split; [|done].
  unfold Config._eval_field. mstep. mlift mapping.
  rewrite bind_lift. simpl. rewrite Hnone. simpl.
  rewrite bind_lift. simpl. rewrite Hcmd. simpl. mstep.
  rewrite (bind_ok _ _ _ _ (Py.strip out)
             (log (EvCheckOutput (secret_command w text) (Ok out)) s)).
  - exact Hstore.
  - rewrite (capture_run _ _ _ _ _ _ (prepare_secret text w s Hfree)).
    by rewrite Hout.
Qed.

Lemma eval_field_prompt out :
  Py.assoc name fields = None →
  Py.assoc (name +:+ "_command") fields = None →
  nul_free (Config.input_title section name) = true →
  subprocess_check_output w (trace s) (secret_prompt w section name) = Ok out →
  resolved_to (secret_prompt w section name) out.
Proof using mapping.
  intros Hnone Hcmd Hfree Hout.
  destruct (store_run section name (JStr (Py.strip out)) fields w
              (log (EvCheckOutput (secret_prompt w section name) (Ok out)) s)
              mapping)
    as (doc' & Hstore & Hsec & Hother).
  exists doc'. split; [|done].
  unfold Config._eval_field. mstep. mlift mapping.
  rewrite bind_lift. simpl. rewrite Hnone. simpl.
  rewrite bind_lift. simpl. rewrite Hcmd. simpl.
  rewrite (bind_ok _ _ _ _ (Py.strip out)
             (log (EvCheckOutput (secret_prompt w section name) (Ok out)) s)).
  - exact Hstore.
  - rewrite input_run. cbv zeta. rewrite input_command_free, Hfree.
    unfold secret_prompt in Hout. by rewrite Hout.
Qed.

End eval_field.

Lemma store_inv section name value w s s' :
  Config.store section name value w s = (Ok (), s') →
  ∃ fields,
    Py.getitem (self_config s) section = Ok (JObj fields) ∧
    Py.getitem (self_config s') section
    = Ok (JObj (Py.assoc_set name value fields)) ∧
    ∀ other, section ≠ other →
      Py.getitem (self_config s') other = Py.getitem (self_config s) other.
Proof.
  unfold Config.store. mstep.
  mcase Hsec; [done|]. destruct a as [| | | | | |fields]; try done.
  intros Hrun. exists fields. split; [done|].
  destruct (store_run section name value fields w s Hsec)
    as (doc' & Hstore & Hget & Hother).
  unfold Config.store in Hstore. revert Hstore. mstep. mlift Hsec.
  rewrite Hrun. intros [= ->]. done.
Qed.

Lemma eval_field_inv w s s' section name :
  Config._eval_field section name w s = (Ok (), s') →
  (s' = s ∧ ∃ sec, Py.getitem (self_config s) section = Ok sec ∧
                   Py.contains name sec = Ok true) ∨
  (∃ fields secret,
     Py.getitem (self_config s) section = Ok (JObj fields) ∧
     Py.assoc name fields = None ∧
     Py.getitem (self_config s') section
     = Ok (JObj (Py.assoc_set name (JStr secret) fields)) ∧
     ∀ other, section ≠ other →
       Py.getitem (self_config s') other = Py.getitem (self_config s) other).
Proof.
  unfold Config._eval_field. mstep.
  mcase Hsec; [done|]. rename a into sec.
  mcase Hpresent; [done|]. destruct a.
  { intros [= <-]. left. split; [done|]. by exists sec. }
  assert (∀ value s1, self_config s1 = self_config s →
            Config.store section name (JStr value) w s1 = (Ok (), s') →
            ∃ fields secret,
              Py.getitem (self_config s) section = Ok (JObj fields) ∧
              Py.assoc name fields = None ∧
              Py.getitem (self_config s') section
              = Ok (JObj (Py.assoc_set name (JStr secret) fields)) ∧
              ∀ other, section ≠ other →
                Py.getitem (self_config s') other
                = Py.getitem (self_config s) other) as Hstore.
  { intros value s1 Hcfg Hrun.
    apply store_inv in Hrun as (fields & Hf & Hget & Hother).
    rewrite Hcfg in Hf, Hother. exists fields, value. split; [done|].
    split; [|done]. rewrite Hf in Hsec. injection Hsec as <-.
    simpl in Hpresent. injection Hpresent as Hdec.
    apply bool_decide_eq_false in Hdec.
    destruct (Py.assoc name fields); [|done]. by destruct Hdec. }
  intros Hrun. right. revert Hrun.
  mcase Hcmd; [done|]. destruct a.
  - mcase Hcommand; [done|]. rename a into command.
    destruct (prepare_pure (Command.init command ∅) true w s) as [[e|c] Hprep].
    + by rewrite (bind_raise _ _ _ _ _ _ (capture_unprepared _ _ true _ _ _ Hprep)).
    + rewrite bind_run, (capture_run _ _ _ _ _ _ Hprep).
      destruct (subprocess_check_output w (trace s) c); [done|].
      simpl. intros Hrun. rewrite <-Hsec. by eapply Hstore; [|exact Hrun].
  - rewrite bind_run, input_run. cbv zeta.
    destruct (forallb nul_free _); [|done].
    destruct (subprocess_check_output w (trace s) _); [done|].
    intros Hrun. rewrite <-Hsec. by eapply Hstore; [|exact Hrun].
Qed.

Lemma eval_field_frame w s s' section name other :
  Config._eval_field section name w s = (Ok (), s') →
  section ≠ other →
  Py.getitem (self_config s') other = Py.getitem (self_config s) other.
Proof.
  intros Hrun Hne.
  apply eval_field_inv in Hrun as [[-> _]|(? & ? & _ & _ & _ & Hother)]; auto.
Qed.

(** *** Construction *)

Lemma loads_inv o w s doc s1 :
  Config.loads o w s = (Ok doc, s1) →
  s1 = s ∧ ∃ text, o = PyData (JStr text) ∧ json_loads w text = Ok doc.
Proof.
  unfold Config.loads. mstep.
  destruct o as [[| | | |text| |]|]; try done.
  unfold lift. intros [= Hl <-]. split; [done|]. by exists text.
Qed.

Lemma init_halves env_json env_file var w s :
  Config.__init__ env_json env_file var w s =
  (load_document env_json env_file var >>
   Config._eval_field "restic" "pass" >>
   Config._eval_field "s3" "pass")%script w s.
Proof. unfold Config.__init__, load_document. by rewrite bind_bind. Qed.

(** The document that construction starts from is one that [json.loads]
    returned. *)
Lemma load_document_inv env_json env_file var w s s1 :
  load_document env_json env_file var w s = (Ok (), s1) →
  ∃ text, json_loads w text = Ok (self_config s1).
Proof.
  unfold load_document. mstep. case_bool_decide; [|case_bool_decide].
  - intros Hload.
    apply bind_inv in Hload as [(? & _ & [=])|(o & sa & _ & Hload)].
    apply bind_inv in Hload as [(? & _ & [=])|(text & sb & _ & Hload)].
    apply bind_inv in Hload as [(? & _ & [=])|(doc & sc & Hloads & Hset)].
    apply loads_inv in Hloads as (-> & text' & [= <-] & Hparse).
    injection Hset as <-. by exists text.
  - intros Hload.
    apply bind_inv in Hload as [(? & _ & [=])|(text & sb & _ & Hload)].
    apply bind_inv in Hload as [(? & _ & [=])|(doc & sc & Hloads & Hset)].
    apply loads_inv in Hloads as (-> & text' & [= <-] & Hparse).
    injection Hset as <-. by exists text.
  - destruct (module_globals w !! var) as [o|]; [|done]. intros Hload.
    apply bind_inv in Hload as [(? & _ & [=])|(doc & sc & Hloads & Hset)].
    apply loads_inv in Hloads as (-> & text' & -> & Hparse).
    injection Hset as <-. by exists text'.
Qed.

(** Construction is: load a document, then evaluate [restic.pass], then
    [s3.pass]. *)
Lemma init_phases w s s' :
  Config.new w s = (Ok (), s') →
  ∃ s1 s2,
    load_document "RESTIC_EZ_CONFIG" "RESTIC_EZ_CONFIG_FILE" "CONFIG" w s
    = (Ok (), s1) ∧
    Config._eval_field "restic" "pass" w s1 = (Ok (), s2) ∧
    Config._eval_field "s3" "pass" w s2 = (Ok (), s').
Proof.
  unfold Config.new. rewrite init_halves. intros Hrun.
  apply bind_inv in Hrun as [(? & _ & [=])|([] & s1 & Hload & Hrun)].
  apply bind_inv in Hrun as [(? & _ & [=])|([] & s2 & Hrestic & Hs3)].
  by exists s1, s2.
Qed.

Lemma construction_inv w s1 s2 s' :
  Config._eval_field "restic" "pass" w s1 = (Ok (), s2) →
  Config._eval_field "s3" "pass" w s2 = (Ok (), s') →
  section_outcome (self_config s1) (self_config s') "restic" ∧
  section_outcome (self_config s1) (self_config s') "s3".
Proof.
  intros H1 H2.
  pose proof (eval_field_frame _ _ _ _ _ "restic" H2) as Hrestic.
  pose proof (eval_field_frame _ _ _ _ _ "s3" H1) as Hs3.
  specialize (Hrestic ltac:(done)). specialize (Hs3 ltac:(done)).
  split.
  - apply eval_field_inv in H1
      as [(-> & sec & Hsec & Hin)|(fields & secret & Hsec & Hnone & Hget & _)].
    + left. exists sec. by rewrite Hrestic.
    + right. exists fields, secret. by rewrite Hrestic.
  - apply eval_field_inv in H2
      as [(-> & sec & Hsec & Hin)|(fields & secret & Hsec & Hnone & Hget & _)].
    + left. exists sec. by rewrite <-Hs3.
    + right. exists fields, secret. by rewrite <-Hs3.
Qed.

Lemma section_outcome_string loaded final sec :
  section_outcome loaded final sec →
  secret_section loaded sec →
  ∃ secret, field_of final sec "pass" = Ok (JStr secret).
Proof.
  intros [(value & Hload & Hin & Hfinal)|(fields & secret & _ & _ & Hfinal)]
    (fields0 & Hmap & Hstr).
  - rewrite Hload in Hmap. injection Hmap as ->.
    simpl in Hin. injection Hin as Hdec. apply bool_decide_eq_true in Hdec.
    destruct Hdec as [v Hv]. specialize (Hstr v Hv).
    destruct v as [| | | |secret| |]; try done.
    exists secret. unfold field_of. rewrite Hfinal. simpl. by rewrite Hv.
  - exists secret. by eapply field_of_stored.
Qed.

(** C4, as the script behaves.  For a secret field of a section that is a
    mapping: a literal value leaves the document and the log untouched;
    otherwise a [_command] entry is run through a shell and its output,
    trimmed, is stored as the value; otherwise exactly one input dialog
    supplies the value.  After construction each of the two sections is
    either as it was loaded, with [pass] found in it, or the loaded mapping
    with a string stored under [pass]; the secrets are both strings whenever
    the loaded document is one of the data model. *)
Theorem secret_resolution (w : World) (s : State) (section name : string)
    (fields : list (string * json)) :
  Py.getitem (self_config s) section = Ok (JObj fields) →
  (∀ v, Py.assoc name fields = Some v →
        Config._eval_field section name w s = (Ok (), s)) ∧
  (∀ text out,
     Py.assoc name fields = None →
     Py.assoc (name +:+ "_command") fields = Some (JStr text) →
     nul_free text = true →
     subprocess_check_output w (trace s) (secret_command w text) = Ok out →
     ∃ doc' secret,
       Config._eval_field section name w s
       = (Ok (), {| self_config := doc';
                    trace := trace s
                             ++ [EvCheckOutput (secret_command w text) (Ok out)] |}) ∧
       argv (secret_command w text) = [text] ∧
       shell (secret_command w text) = true ∧
       field_of doc' section name = Ok (JStr secret) ∧
       trimmed out secret) ∧
  (∀ out,
     Py.assoc name fields = None →
     Py.assoc (name +:+ "_command") fields = None →
     nul_free (Config.input_title section name) = true →
     subprocess_check_output w (trace s) (secret_prompt w section name) = Ok out →
     ∃ doc' secret,
       Config._eval_field section name w s
       = (Ok (), {| self_config := doc';
                    trace := trace s
                             ++ [EvCheckOutput (secret_prompt w section name)
                                   (Ok out)] |}) ∧
       field_of doc' section name = Ok (JStr secret) ∧
       trimmed out secret) ∧
  (∀ s0 s',
     Config.new w s0 = (Ok (), s') →
     ∃ s1,
       load_document "RESTIC_EZ_CONFIG" "RESTIC_EZ_CONFIG_FILE" "CONFIG" w s0
       = (Ok (), s1) ∧
       (∃ text, json_loads w text = Ok (self_config s1)) ∧
       section_outcome (self_config s1) (self_config s') "restic" ∧
       section_outcome (self_config s1) (self_config s') "s3" ∧
       (secret_section (self_config s1) "restic" →
        secret_section (self_config s1) "s3" →
        ∃ p1 p2,
          field_of (self_config s') "restic" "pass" = Ok (JStr p1) ∧
          field_of (self_config s') "s3" "pass" = Ok (JStr p2))).
Proof.
  intros Hsec. split; [|split; [|split]].
  - intros v Hv. by eapply eval_field_literal.
  - intros text out Hnone Hcmd Hfree Hout.
    destruct (eval_field_command w s section name fields Hsec text out)
      as (doc' & Hrun & Hget & _); [done..|].
    exists doc', (Py.strip out). split; [done|]. do 2 (split; [done|]).
    split; [by eapply field_of_stored|apply strip_trimmed].
  - intros out Hnone Hcmd Hfree Hout.
    destruct (eval_field_prompt w s section name fields Hsec out)
      as (doc' & Hrun & Hget & _); [done..|].
    exists doc', (Py.strip out). split; [done|].
    split; [by eapply field_of_stored|apply strip_trimmed].
  - intros s0 s' Hnew.
    apply init_phases in Hnew as (s1 & s2 & Hload & H1 & H2).
    destruct (construction_inv _ _ _ _ H1 H2) as [Hrestic Hs3].
    exists s1. split; [done|]. split; [by eapply load_document_inv|].
    do 2 (split; [done|]). intros Mrestic Ms3.
    destruct (section_outcome_string _ _ _ Hrestic Mrestic) as [p1 Hp1].
    destruct (section_outcome_string _ _ _ Hs3 Ms3) as [p2 Hp2].
    by exists p1, p2.
Qed.

Example secret_resolution_witness :
  Config._eval_field "restic" "pass" Sample.world (Sample.loaded Sample.config)
  = (Ok (), Sample.loaded Sample.config) ∧
  (∃ secret,
     field_of
       (self_config (Config._eval_field "restic" "pass" Sample.world
                       (Sample.loaded Sample.unresolved)).2) "restic" "pass"
     = Ok (JStr secret) ∧
     trimmed ("s3cret" +:+ Sample.newline) secret ∧ secret = "s3cret") ∧
  (∃ secret,
     field_of
       (self_config (Config._eval_field "s3" "pass" Sample.world
                       (Sample.loaded Sample.unresolved)).2) "s3" "pass"
     = Ok (JStr secret) ∧
     trimmed "typed" secret ∧ secret = "typed") ∧
  (∃ p1 p2,
     field_of (self_config (Config.new Sample.unresolved_world initial).2)
       "restic" "pass" = Ok (JStr p1) ∧
     field_of (self_config (Config.new Sample.unresolved_world initial).2)
       "s3" "pass" = Ok (JStr p2)).
Proof.
  split; [|split; [|split]].
  - apply (proj1 (secret_resolution Sample.world (Sample.loaded Sample.config)
                    "restic" "pass" [("pass", JStr "p"); ("repo", JStr "r")]
                    eq_refl) (JStr "p")).
    reflexivity.
  - destruct (proj1 (proj2 (secret_resolution Sample.world
                (Sample.loaded Sample.unresolved) "restic" "pass"
                [("repo", JStr "r"); ("pass_command", JStr "pass show restic")]
                eq_refl)) "pass show restic" ("s3cret" +:+ Sample.newline)
                eq_refl eq_refl eq_refl eq_refl)
      as (doc' & secret & Hrun & _ & _ & Hfield & Htrim).
    exists secret. rewrite Hrun. split; [exact Hfield|]. split; [exact Htrim|].
    assert (self_config (Config._eval_field "restic" "pass" Sample.world
                           (Sample.loaded Sample.unresolved)).2
            = JObj [ ("directory", JStr "/d");
                     ("restic", JObj [("repo", JStr "r");
                                      ("pass_command", JStr "pass show restic");
                                      ("pass", JStr "s3cret")]);
                     ("s3", JObj [("user", JStr "u")]) ]) as Hdoc
      by (vm_compute; reflexivity).
    rewrite Hrun in Hdoc. simpl in Hdoc. rewrite Hdoc in Hfield.
    by injection Hfield.
  - destruct (proj1 (proj2 (proj2 (secret_resolution Sample.world
                (Sample.loaded Sample.unresolved) "s3" "pass"
                [("user", JStr "u")] eq_refl))) "typed"
                eq_refl eq_refl eq_refl eq_refl)
      as (doc' & secret & Hrun & Hfield & Htrim).
    exists secret. rewrite Hrun. split; [exact Hfield|]. split; [exact Htrim|].
    assert (self_config (Config._eval_field "s3" "pass" Sample.world
                           (Sample.loaded Sample.unresolved)).2
            = JObj [ ("directory", JStr "/d");
                     ("restic", JObj [("repo", JStr "r");
                                      ("pass_command", JStr "pass show restic")]);
                     ("s3", JObj [("user", JStr "u"); ("pass", JStr "typed")]) ])
      as Hdoc by (vm_compute; reflexivity).
    rewrite Hrun in Hdoc. simpl in Hdoc. rewrite Hdoc in Hfield.
    by injection Hfield.
  - destruct (proj2 (proj2 (proj2 (secret_resolution Sample.unresolved_world
                (Sample.loaded Sample.config) "restic" "pass"
                [("pass", JStr "p"); ("repo", JStr "r")] eq_refl)))
                initial (Config.new Sample.unresolved_world initial).2)
      as (s1 & Hload & _ & _ & _ & Hmodel).
    + apply surjective_pairing_ok. vm_compute. reflexivity.
    + assert (s1 = Sample.loaded Sample.unresolved) as ->.
      { revert Hload. vm_compute. by intros [= <-]. }
      apply Hmodel.
      * eexists. split; [reflexivity|]. by intros v [=].
      * eexists. split; [reflexivity|]. by intros v [=].
Defined.

(** C4, where the invariant of the specification fails: a literal [pass]
    that is not a string stays what it is.  Construction completes on the
    document with the passphrase [5], and [restic.pass] is then the number
    [5]. *)
Example secret_need_not_be_a_string :
  (Config.new Sample.untyped_world initial).1 = Ok () ∧
  field_of (self_config (Config.new Sample.untyped_world initial).2)
    "restic" "pass" = Ok (JInt 5) ∧
  ¬ ∃ text,
      field_of (self_config (Config.new Sample.untyped_world initial).2)
        "restic" "pass" = Ok (JStr text).
Proof.
  assert (field_of (self_config (Config.new Sample.untyped_world initial).2)
            "restic" "pass" = Ok (JInt 5)) as Hfield by (vm_compute; reflexivity).
  split; [vm_compute; reflexivity|]. split; [exact Hfield|].
  intros [text Htext]. rewrite Hfield in Htext. discriminate.
Qed.

(** ** Readers *)

Lemma reads_ret {A} (a : A) : reads (ret a).
Proof. by exists (λ _ _, Ok a). Qed.

Lemma reads_lift {A} (r : result A) : reads (lift r).
Proof. by exists (λ _ _, r). Qed.

Lemma reads_world : reads world.
Proof. by exists (λ w _, Ok w). Qed.

Lemma reads_get_config : reads get_config.
Proof. by exists (λ _ doc, Ok doc). Qed.

Lemma reads_bind {A B} (m : M A) (k : A → M B) :
  reads m → (∀ a, reads (k a)) → reads (bind m k).
Proof.
  intros [f Hf] Hk.
  exists (λ w doc, match f w doc with
                   | inl e => inl e
                   | inr a => (bind (k a) ret w {| self_config := doc; trace := [] |}).1
                   end).
  intros w s. rewrite bind_run, Hf. destruct (f w (self_config s)) as [e|a]; [done|].
  destruct (Hk a) as [g Hg]. rewrite bind_run, !Hg. simpl.
  by destruct (g w (self_config s)).
Qed.

Lemma reads_if {A} (b : bool) (m1 m2 : M A) :
  reads m1 → reads m2 → reads (if b then m1 else m2).
Proof. by destruct b. Qed.

Create HintDb readers.
#[local] Hint Resolve reads_ret reads_lift reads_world reads_get_config
  reads_if : readers.
#[local] Hint Extern 2 (reads (bind _ _)) =>
  apply reads_bind; [|intros ?] : readers.

Lemma reads_get_directory : reads Config.get_directory.
Proof. unfold Config.get_directory. auto with readers. Qed.

Lemma reads_get_restic_flags context : reads (Config.get_restic_flags context).
Proof. unfold Config.get_restic_flags. auto 10 with readers. Qed.

Lemma reads_env : reads Config.env.
Proof.
  unfold Config.env. pose proof reads_get_directory. auto 20 with readers.
Qed.

Lemma reads_prepare self sh : reads (Command.prepare self sh).
Proof. unfold Command.prepare. auto 10 with readers. Qed.

(** A reader gives the same answer in any two states that hold the same
    configuration. *)
Lemma reads_transfer {A} (m : M A) w s s1 r :
  reads m → m w s = (r, s) → self_config s1 = self_config s → m w s1 = (r, s1).
Proof.
  intros [f Hf] Hrun Hcfg. rewrite Hf in Hrun. rewrite Hf, Hcfg. congruence.
Qed.

Lemma reads_state {A} (m : M A) w s : reads m → ∃ r, m w s = (r, s).
Proof. intros [f Hf]. eexists. apply Hf. Qed.

(** ** Ordering of timestamps *)

Lemma ltb_le (x y : string) : String.ltb x y = true → String.le x y.
Proof.
  unfold String.le, String.ltb, String.leb.
  by destruct (String.compare x y).
Qed.

Lemma not_ltb_le (x y : string) : String.ltb y x = false → String.le x y.
Proof.
  unfold String.le, String.ltb, String.leb.
  rewrite (String.compare_antisym y x). by destruct (String.compare x y).
Qed.

Lemma ltb_irrefl (x : string) : String.ltb x x = false.
Proof.
  unfold String.ltb. destruct (String.compare x x) eqn:E; try done.
  pose proof (String.compare_antisym x x) as H. rewrite E in H. done.
Qed.

#[local] Instance time_le_preorder : PreOrder time_le.
Proof.
  split.
  - intros a. unfold time_le. reflexivity.
  - intros a b c. unfold time_le. apply transitivity.
Qed.

(** ** Sorting by time *)

Lemma time_key_archive a :
  is_archive a → Restic.time_key a = Ok (JStr (archive_time a)).
Proof.
  unfold is_archive, Restic.time_key, archive_time.
  by destruct (Py.getitem a "time") as [|[]].
Qed.

Lemma keys_of_archives items :
  Forall is_archive items →
  Py.keys_of Restic.time_key items = Ok (keyed <$> items).
Proof.
  induction 1 as [|a items Ha _ IH]; [done|].
  cbn [Py.keys_of]. by rewrite (time_key_archive a Ha), IH.
Qed.

Lemma insert_keyed_archive a l :
  ∃ l', Py.insert_keyed (keyed a) (keyed <$> l) = Ok (keyed <$> l') ∧
        l' ≡ₚ a :: l ∧
        (StronglySorted time_le l → StronglySorted time_le l').
Proof.
  induction l as [|b l (l' & Hrun & Hperm & Hsorted)].
  - exists [a]. repeat split; [done|]. intros _. repeat constructor.
  - cbn [fmap list_fmap Py.insert_keyed]. simpl.
    destruct (String.ltb (archive_time b) (archive_time a)) eqn:Hlt; simpl.
    + exists (b :: l'). fold (keyed <$> l). rewrite Hrun. split; [done|]. split.
      * rewrite Hperm. apply Permutation_swap.
      * intros Hs. apply StronglySorted_inv in Hs as [Hs Hall].
        constructor; [by apply Hsorted|].
        rewrite Hperm. constructor; [|done]. by apply ltb_le.
    + exists (a :: b :: l). repeat split; [done|].
      intros Hs. constructor; [done|].
      apply StronglySorted_inv in Hs as [Hs Hall].
      assert (time_le a b) as Hab by by apply not_ltb_le.
      constructor; [done|].
      eapply Forall_impl; [exact Hall|]. intros c Hbc. by etrans.
Qed.

Lemma sort_keyed_archives l :
  ∃ l', Py.sort_keyed (keyed <$> l) = Ok (keyed <$> l') ∧
        l' ≡ₚ l ∧ StronglySorted time_le l'.
Proof.
  induction l as [|a l (l' & Hrun & Hperm & Hsorted)].
  - exists []. repeat split; constructor.
  - cbn [fmap list_fmap Py.sort_keyed]. fold (keyed <$> l). rewrite Hrun. simpl.
    destruct (insert_keyed_archive a l') as (l'' & Hins & Hperm' & Hsorted').
    exists l''. split; [done|]. split; [by rewrite Hperm', Hperm|auto].
Qed.

Lemma sorted_archives items :
  Forall is_archive items →
  ∃ l', Py.sorted Restic.time_key items = Ok l' ∧
        l' ≡ₚ items ∧ StronglySorted time_le l'.
Proof.
  intros Hall. destruct (sort_keyed_archives items) as (l' & Hrun & Hperm & Hs).
  exists l'. split; [|done].
  unfold Py.sorted. rewrite (keys_of_archives _ Hall). simpl. rewrite Hrun. simpl.
  f_equal. rewrite <-list_fmap_compose. apply list_fmap_id.
Qed.

Lemma last_greatest {A} (R : relation A) `{!Reflexive R} (l : list A) (m : A) :
  StronglySorted R l → last l = Some m → ∀ x, x ∈ l → R x m.
Proof.
  induction 1 as [|a l Hs IH Hall]; [done|].
  intros Hlast x Hx. destruct l as [|b l].
  - simpl in Hlast. injection Hlast as <-.
    apply list_elem_of_singleton in Hx as ->. reflexivity.
  - change (last (b :: l) = Some m) in Hlast.
    apply elem_of_cons in Hx as [->|Hx]; [|by apply IH].
    rewrite Forall_forall in Hall. apply Hall.
    apply last_Some_elem_of, Hlast.
Qed.

(** ** Filtering out the snapshots *)

Lemma not_snapshot_tagged a tags :
  Py.getitem a "tags" = Ok (JArr tags) →
  Restic.not_snapshot a = Ok (negb (is_snapshot a)).
Proof.
  intros Htags. unfold Restic.not_snapshot, is_snapshot, archive_tags.
  by rewrite Htags.
Qed.

Lemma is_archive_tagged a :
  is_archive a → ∃ tags, Py.getitem a "tags" = Ok (JArr tags).
Proof.
  unfold is_archive.
  destruct (Py.getitem a "time") as [|[]]; try done.
  destruct (Py.getitem a "id") as [|[]]; try done.
  destruct (Py.getitem a "tags") as [|[]]; try done. by eexists.
Qed.

Lemma is_snapshot_tagged a :
  is_snapshot a → ∃ tags, Py.getitem a "tags" = Ok (JArr tags).
Proof.
  unfold is_snapshot, archive_tags.
  destruct (Py.getitem a "tags") as [|[]]; try done. by eexists.
Qed.

Lemma filter_tagged items :
  Forall (λ a, ∃ tags, Py.getitem a "tags" = Ok (JArr tags)) items →
  Py.filter Restic.not_snapshot items = Ok (filter (λ a, ¬ is_snapshot a) items).
Proof.
  induction 1 as [|a items [tags Ha] _ IH]; [done|].
  cbn [Py.filter]. rewrite (not_snapshot_tagged _ _ Ha), IH. simpl.
  destruct (is_snapshot a) eqn:Hsnap; simpl.
  - rewrite filter_cons_False; [done|]. rewrite Hsnap. auto.
  - rewrite filter_cons_True; [done|]. rewrite Hsnap. by intros [].
Qed.

(** ** The backup driver *)

Lemma display_run self sh c w s :
  Command.prepare self sh w s = (Ok c, s) →
  Command.display self sh w s =
  (of_option (subprocess_run w (trace s) c),
   log (EvRun c (subprocess_run w (trace s) c)) s).
Proof. intros Hprep. unfold Command.display. by rewrite (bind_ok _ _ _ _ _ _ Hprep). Qed.

Lemma display_unprepared self sh e w s :
  Command.prepare self sh w s = (Raise e, s) →
  Command.display self sh w s = (Raise e, s).
Proof. intros Hprep. unfold Command.display. by rewrite (bind_raise _ _ _ _ _ _ Hprep). Qed.

Lemma as_strings_app l1 l2 args :
  as_strings (l1 ++ l2) = Ok args →
  ∃ a1 a2, as_strings l1 = Ok a1 ∧ as_strings l2 = Ok a2 ∧ args = a1 ++ a2.
Proof.
  revert args. induction l1 as [|v l1 IH]; intros args; simpl.
  - intros H. by exists [], args.
  - destruct v; try done. destruct (nul_free s); [|done].
    destruct (as_strings (l1 ++ l2)) as [|rest] eqn:E; [done|].
    intros [= <-]. destruct (IH rest eq_refl) as (a1 & a2 & -> & H2 & ->).
    by exists (s :: a1), a2.
Qed.

(** The argument vector of a prepared command is the command's list. *)
Lemma prepare_argv (items : list json) env sh c w s :
  Command.prepare (Command.init (JArr items) env) sh w s = (Ok c, s) →
  as_strings items = Ok (argv c) ∧ shell c = sh ∧
  merged_env (os_environ w) env = Ok (penv c).
Proof. by intros (items' & [= <-] & _ & ? & ? & ?)%prepare_inv. Qed.

Lemma merged_env_overlays w env penv0 c :
  merged_env (os_environ w) env = Ok penv0 → penv c = penv0 → overlays w env c.
Proof.
  intros Hmerged Hc. unfold overlays. rewrite Hc. split.
  - intros k v Hk. by eapply merged_env_lookup.
  - intros k Hk. apply merged_env_inv in Hmerged as (-> & _ & _).
    rewrite lookup_omap, exported_env_lookup, Hk.
    by destruct (os_environ w !! k).
Qed.

(** A successful listing is one captured process, whose stripped output
    parses to the result. *)
Lemma list_inv w s v s1 :
  Restic._list w s = (Ok v, s1) →
  ∃ c out flags,
    s1 = log (EvCheckOutput c (Ok out)) s ∧
    subprocess_check_output w (trace s) c = Ok out ∧
    argv c = "restic" :: "snapshots" :: "--json" :: flags ∧
    json_loads w (Py.strip out) = Ok v ∧
    shell c = false ∧
    ∃ env, Config.env w s = (Ok env, s) ∧
           merged_env (os_environ w) env = Ok (penv c).
Proof.
  unfold Restic._list.
  destruct (reads_state (Config.get_restic_flags "list") w s
              (reads_get_restic_flags _)) as [[e|flags] Hflags].
  { by rewrite (bind_raise _ _ _ _ _ _ Hflags). }
  rewrite (bind_ok _ _ _ _ _ _ Hflags).
  mcase Hiter; [done|]. rename a into fl.
  destruct (reads_state Config.env w s reads_env) as [[e|env] Henv].
  { by rewrite (bind_raise _ _ _ _ _ _ Henv). }
  rewrite (bind_ok _ _ _ _ _ _ Henv).
  destruct (prepare_pure
              (Command.init
                 (JArr ([JStr "restic"; JStr "snapshots"; JStr "--json"] ++ fl)) env)
              false w s) as [[e|c] Hprep].
  { by rewrite (bind_raise _ _ _ _ _ _ (capture_unprepared _ _ true _ _ _ Hprep)). }
  rewrite bind_run, (capture_run _ _ _ _ _ _ Hprep).
  destruct (subprocess_check_output w (trace s) c) as [e|out] eqn:Hout; [done|].
  simpl. intros Hloads. apply loads_inv in Hloads as (-> & text & [= <-] & Hparse).
  apply prepare_argv in Hprep as (Hargs & Hsh & Hmerged).
  apply (as_strings_app [JStr "restic"; JStr "snapshots"; JStr "--json"]) in Hargs
    as (a1 & flags' & [= <-] & _ & Hargv).
  exists c, out, flags'. do 5 (split; [done|]). by exists env.
Qed.

Lemma list_config w s v s1 :
  Restic._list w s = (Ok v, s1) → self_config s1 = self_config s.
Proof. intros H. by apply list_inv in H as (? & ? & ? & -> & _). Qed.

(** The selection made when no id is given. *)
Lemma latest_id_run w s s1 items kept :
  Restic._list w s = (Ok (JArr items), s1) →
  Py.filter Restic.not_snapshot items = Ok kept →
  Forall is_archive kept →
  ∃ sorted,
    sorted ≡ₚ kept ∧ StronglySorted time_le sorted ∧
    Restic.latest_id w s =
    (match last sorted with
     | Some sel => Ok (JStr (archive_id sel))
     | None => Raise NoArchiveError
     end, s1).
Proof.
  intros Hlist Hfilter Hall.
  destruct (sorted_archives kept Hall) as (sorted & Hsort & Hperm & Hsorted).
  exists sorted. split; [done|]. split; [done|].
  unfold Restic.latest_id. rewrite (bind_ok _ _ _ _ _ _ Hlist).
  rewrite (bind_lift_ok _ _ _ _ items) by done. mlift Hfilter. mlift Hsort.
  unfold Restic.last_item. destruct (last sorted) as [sel|] eqn:Hlast; [|by mstep].
  mstep. unfold lift. f_equal.
  assert (is_archive sel) as Hsel.
  { rewrite Forall_forall in Hall. apply Hall. rewrite <-Hperm.
    by apply last_Some_elem_of. }
  unfold is_archive in Hsel. unfold archive_id.
  destruct (Py.getitem sel "time") as [|[]]; try done.
  destruct (Py.getitem sel "id") as [|[]]; try done.
Qed.

(** [restore] is: find the id, unless one is given, then restore it. *)
Lemma restore_unfold tmpdir (id : option json) w s :
  Restic.restore tmpdir id w s =
  bind (match id with
        | None | Some JNull => Restic.latest_id
        | Some id => ret id
        end) (restore_with tmpdir) w s.
Proof. reflexivity. Qed.

Lemma restore_given tmpdir (id : json) w s :
  id ≠ JNull → Restic.restore tmpdir (Some id) w s = restore_with tmpdir id w s.
Proof. intros Hid. rewrite restore_unfold. by destruct id. Qed.

(** With the id known: at most one process, the restore command, whose
    last argument is the id. *)
Lemma restore_with_inv tmpdir (id : json) w s r s2 :
  restore_with tmpdir id w s = (r, s2) →
  (s2 = s ∧ ∃ e, r = Raise e) ∨
  ∃ c flags text,
    id = JStr text ∧
    s2 = log (EvRun c (subprocess_run w (trace s) c)) s ∧
    r = of_option (subprocess_run w (trace s) c) ∧
    argv c = "restic" :: "restore" :: "--target" :: tmpdir :: flags ++ [text] ∧
    shell c = false.
Proof.
  unfold restore_with.
  destruct (reads_state (Config.get_restic_flags "restore") w s
              (reads_get_restic_flags _)) as [[e|flags] Hflags].
  { rewrite (bind_raise _ _ _ _ _ _ Hflags). intros [= <- <-]. left. eauto. }
  rewrite (bind_ok _ _ _ _ _ _ Hflags).
  mcase Hiter; [intros [= <- <-]; left; eauto|]. rename a into fl.
  destruct (reads_state Config.env w s reads_env) as [[e|env] Henv].
  { rewrite (bind_raise _ _ _ _ _ _ Henv). intros [= <- <-]. left. eauto. }
  rewrite (bind_ok _ _ _ _ _ _ Henv).
  destruct (prepare_pure
              (Command.init
                 (JArr ([JStr "restic"; JStr "restore"; JStr "--target"; JStr tmpdir]
                        ++ fl ++ [id])) env)
              false w s) as [[e|c] Hprep].
  { rewrite (display_unprepared _ _ _ _ _ Hprep). intros [= <- <-]. left. eauto. }
  rewrite (display_run _ _ _ _ _ Hprep). intros [= <- <-]. right.
  apply prepare_argv in Hprep as (Hargs & Hsh & _).
  apply (as_strings_app [JStr "restic"; JStr "restore"; JStr "--target"; JStr tmpdir])
    in Hargs as (a1 & rest & Hfixed & Hrest & Hargv).
  simpl in Hfixed. destruct (nul_free tmpdir); [|done]. injection Hfixed as <-.
  apply as_strings_app in Hrest as (flags' & last' & _ & Hid & ->).
  destruct id as [| | | |text| |]; try done. simpl in Hid.
  destruct (nul_free text); [|done]. injection Hid as <-.
  by exists c, flags', text.
Qed.

(** With the id known, string flags and no NUL anywhere: the one process. *)
Lemma restore_with_run tmpdir text flags env penv0 w s :
  Config.get_restic_flags "restore" w s = (Ok (JArr (JStr <$> flags)), s) →
  Config.env w s = (Ok env, s) →
  merged_env (os_environ w) env = Ok penv0 →
  forallb nul_free (tmpdir :: flags ++ [text]) = true →
  let c := {| argv := "restic" :: "restore" :: "--target" :: tmpdir
                      :: flags ++ [text];
              shell := false; penv := penv0 |} in
  restore_with tmpdir (JStr text) w s
  = (of_option (subprocess_run w (trace s) c),
     log (EvRun c (subprocess_run w (trace s) c)) s).
Proof.
  intros Hflags Henv Hmerged Hfree c. unfold restore_with.
  rewrite (bind_ok _ _ _ _ _ _ Hflags).
  rewrite (bind_lift_ok _ _ _ _ (JStr <$> flags)) by done.
  rewrite (bind_ok _ _ _ _ _ _ Henv).
  apply display_run.
  apply (prepare_ok _ _
           (JStr <$> "restic" :: "restore" :: "--target" :: tmpdir
                     :: flags ++ [text])); [|by apply as_strings_strs|by right|done].
  simpl. by rewrite fmap_app.
Qed.

Lemma filter_snapshots items :
  Forall is_snapshot items → filter (λ a, ¬ is_snapshot a) items = [].
Proof.
  induction 1 as [|a items Ha _ IH]; [done|].
  by rewrite filter_cons_False by auto.
Qed.

Lemma filter_archives items :
  Forall is_archive items →
  Py.filter Restic.not_snapshot items = Ok (filter (λ a, ¬ is_snapshot a) items) ∧
  Forall is_archive (filter (λ a, ¬ is_snapshot a) items).
Proof.
  intros Hall. split.
  - apply filter_tagged. eapply Forall_impl; [done|]. apply is_archive_tagged.
  - rewrite Forall_forall in Hall. apply Forall_forall. intros a Ha.
    apply list_elem_of_filter in Ha as [_ Ha]. by apply Hall.
Qed.

(** C1.  With no id, [restore] selects one archive of the listing: the last
    element of the non-snapshot archives sorted by ascending time.  That
    archive is not a snapshot, no non-snapshot archive is later, its id is
    what the selection returns, and (the flags of the [restore] context being
    strings) the process then started is [restic restore --target tmpdir
    flags... id] with this id, run with the configuration's environment.  For
    the three archives of the example the id is [c]. *)
Theorem restore_selects_latest (w : World) (s s1 : State) (tmpdir : string)
    (items : list json) :
  Restic._list w s = (Ok (JArr items), s1) →
  Forall is_archive items →
  (∃ a, a ∈ items ∧ ¬ is_snapshot a) →
  ∃ sorted sel,
    latest_non_snapshot items sorted sel ∧
    sel ∈ items ∧ ¬ is_snapshot sel ∧
    (∀ a, a ∈ items → ¬ is_snapshot a → time_le a sel) ∧
    Restic.latest_id w s = (Ok (JStr (archive_id sel)), s1) ∧
    (∀ flags,
       Config.get_restic_flags "restore" w s = (Ok (JArr (JStr <$> flags)), s) →
       forallb nul_free (tmpdir :: flags ++ [archive_id sel]) = true →
       ∃ c env,
         argv c = "restic" :: "restore" :: "--target" :: tmpdir
                  :: flags ++ [archive_id sel] ∧
         shell c = false ∧
         Config.env w s = (Ok env, s) ∧ overlays w env c ∧
         Restic.restore tmpdir None w s
         = (of_option (subprocess_run w (trace s1) c),
            log (EvRun c (subprocess_run w (trace s1) c)) s1)) ∧
    (∀ ia ib ic T1 T2 T3,
       String.ltb T1 T2 = true → String.ltb T2 T3 = true →
       items ≡ₚ [ archive_record ia T1 [];
                   archive_record ib T2 ["snapshot"];
                   archive_record ic T3 [] ] →
       archive_id sel = ic).
Proof.
  intros Hlist Hall (a0 & Ha0 & Hns0).
  destruct (filter_archives items Hall) as [Hfilter Hkept].
  destruct (latest_id_run w s s1 items _ Hlist Hfilter Hkept)
    as (sorted & Hperm & Hsorted & Hlatest).
  assert (a0 ∈ sorted) as Hin0.
  { rewrite Hperm. by apply list_elem_of_filter. }
  destruct (last sorted) as [sel|] eqn:Hlast;
    [|by apply last_None in Hlast; subst; apply elem_of_nil in Hin0].
  assert (sel ∈ items ∧ ¬ is_snapshot sel) as [Hsel Hns].
  { apply last_Some_elem_of in Hlast. rewrite Hperm in Hlast.
    apply list_elem_of_filter in Hlast. tauto. }
  assert (∀ a, a ∈ items → ¬ is_snapshot a → time_le a sel) as Hmax.
  { intros a Ha Hnsa. eapply (last_greatest time_le); [done..|].
    rewrite Hperm. by apply list_elem_of_filter. }
  exists sorted, sel. split; [done|]. do 4 (split; [done|]). split.
  - intros flags Hflags Hfree.
    apply list_inv in Hlist as Hinv.
    destruct Hinv as (lc & out & lflags & Hs1 & _ & _ & _ & _ & env & Henv & Hmerged).
    assert (self_config s1 = self_config s) as Hcfg by by rewrite Hs1.
    set (c := {| argv := "restic" :: "restore" :: "--target" :: tmpdir
                         :: flags ++ [archive_id sel];
                 shell := false; penv := penv lc |}).
    exists c, env. do 3 (split; [done|]).
    split; [by eapply merged_env_overlays|].
    rewrite restore_unfold, (bind_ok _ _ _ _ _ _ Hlatest).
    apply restore_with_run with (env := env); [| |done..].
    + by apply (reads_transfer _ _ _ _ _ (reads_get_restic_flags _) Hflags).
    + by apply (reads_transfer _ _ _ _ _ reads_env Henv).
  - intros ia ib ic T1 T2 T3 H12 H23 Hitems.
    assert (sel ∈ [archive_record ia T1 []; archive_record ib T2 ["snapshot"];
                   archive_record ic T3 []]) as Hcases by by rewrite <-Hitems.
    assert (time_le (archive_record ic T3 []) sel) as Hc.
    { apply Hmax; [rewrite Hitems; repeat constructor|]. by intros []. }
    apply elem_of_cons in Hcases as [->|Hcases]; [|
      apply elem_of_cons in Hcases as [->|Hcases]; [|
        apply list_elem_of_singleton in Hcases as ->]].
    + exfalso. unfold time_le in Hc. simpl in Hc.
      apply ltb_le in H12 as H12'. apply ltb_le in H23 as H23'.
      assert (T2 = T1) as ->.
      { apply (anti_symm String.le); [|done]. by etrans. }
      by rewrite ltb_irrefl in H12.
    + by destruct Hns.
    + done.
Qed.

Example restore_selects_latest_witness :
  Restic.latest_id Sample.world (Sample.loaded Sample.config)
  = (Ok (JStr "c"), (Restic._list Sample.world (Sample.loaded Sample.config)).2) ∧
  ∃ c,
    argv c = ["restic"; "restore"; "--target"; "/d.restic-restore"; "c"] ∧
    Restic.restore "/d.restic-restore" None Sample.world
      (Sample.loaded Sample.config)
    = (Ok (), log (EvRun c None)
                (Restic._list Sample.world (Sample.loaded Sample.config)).2).
Proof.
  destruct (restore_selects_latest Sample.world (Sample.loaded Sample.config)
              (Restic._list Sample.world (Sample.loaded Sample.config)).2
              "/d.restic-restore" Sample.archives)
    as (sorted & sel & _ & _ & _ & _ & Hlatest & Hrestore & Hexample).
  - vm_compute. reflexivity.
  - repeat constructor.
  - exists (archive_record "a" "2024-01-01T00:00:00Z" []). split.
    + constructor.
    + by intros [].
  - pose proof (Hexample "a" "b" "c" "2024-01-01T00:00:00Z"
                  "2024-02-01T00:00:00Z" "2024-03-01T00:00:00Z"
                  eq_refl eq_refl (reflexivity _)) as Hid.
    rewrite Hid in Hlatest, Hrestore.
    destruct (Hrestore [] eq_refl eq_refl) as (c & env & Hargv & _ & _ & _ & Hrun).
    exact (conj Hlatest (ex_intro _ c (conj Hargv Hrun))).
Defined.

(** C2.  When every archive of the listing is tagged ["snapshot"], [restore]
    with no id raises [IndexError] (the specification's [NoArchiveError]);
    the listing is the only process it has run. *)
Theorem restore_without_archive (w : World) (s s1 : State) (tmpdir : string)
    (items : list json) :
  Restic._list w s = (Ok (JArr items), s1) →
  Forall is_snapshot items →
  Restic.restore tmpdir None w s = (Raise NoArchiveError, s1) ∧
  self_config s1 = self_config s ∧
  ∃ c out, trace s1 = trace s ++ [EvCheckOutput c (Ok out)].
Proof.
  intros Hlist Hall.
  assert (Py.filter Restic.not_snapshot items = Ok []) as Hfilter.
  { rewrite filter_tagged
      by (eapply Forall_impl; [done|]; apply is_snapshot_tagged).
    by rewrite filter_snapshots. }
  destruct (latest_id_run w s s1 items [] Hlist Hfilter (Forall_nil_2 _))
    as (sorted & Hperm & _ & Hlatest).
  apply Permutation_nil_r in Hperm as ->. simpl in Hlatest.
  split; [|split].
  - unfold Restic.restore. by rewrite (bind_raise _ _ _ _ _ _ Hlatest).
  - by eapply list_config.
  - apply list_inv in Hlist as (c & out & _ & -> & _). by exists c, out.
Qed.

Example restore_without_archive_witness :
  Restic.restore "/d.restic-restore" None
    (Sample.installation ∅ Sample.bare ∅ Sample.snapshots_only false)
    (Sample.loaded Sample.config)
  = (Raise NoArchiveError,
     (Restic._list (Sample.installation ∅ Sample.bare ∅ Sample.snapshots_only false)
        (Sample.loaded Sample.config)).2).
Proof.
  apply (restore_without_archive
           (Sample.installation ∅ Sample.bare ∅ Sample.snapshots_only false)
           (Sample.loaded Sample.config) _ "/d.restic-restore"
           [archive_record "b" "2024-02-01T00:00:00Z" ["snapshot"]]).
  - vm_compute. reflexivity.
  - repeat constructor.
Defined.

(** ** Interactions of a computation *)

Lemma restore_halves :
  restore =
  (Config.new >>
   let* directory := Config.get_directory in
   let* path := lift (as_path directory) in
   let* present := path_exists path in
   (if present : bool then snapshot_and_delete else ret ()) >>
   restore_and_relocate)%script.
Proof. reflexivity. Qed.

Lemma emits_reads {A} P (m : M A) : reads m → emits P m.
Proof.
  intros [f Hf] w s r s'. rewrite Hf. intros [= _ <-].
  exists []. by rewrite app_nil_r.
Qed.

Lemma emits_bind {A B} P (m : M A) (k : A → M B) :
  emits P m → (∀ a, emits P (k a)) → emits P (bind m k).
Proof.
  intros Hm Hk w s r s' Hrun.
  apply bind_inv in Hrun as [(e & Hrun & _)|(a & s1 & Hrun & Hrest)].
  - by eapply Hm.
  - destruct (Hm _ _ _ _ Hrun) as (n1 & H1 & HP1).
    destruct (Hk a _ _ _ _ Hrest) as (n2 & H2 & HP2).
    exists (n1 ++ n2). split; [by rewrite H2, H1, app_assoc|by apply Forall_app].
Qed.

Lemma emits_catch {A} P (m h : M A) : emits P m → emits P h → emits P (catch m h).
Proof.
  intros Hm Hh w s r s'. unfold catch.
  destruct (m w s) as [[e|a] s1] eqn:Hrun.
  - intros Hhandler.
    destruct (Hm _ _ _ _ Hrun) as (n1 & H1 & HP1).
    destruct (Hh _ _ _ _ Hhandler) as (n2 & H2 & HP2).
    exists (n1 ++ n2). split; [by rewrite H2, H1, app_assoc|by apply Forall_app].
  - intros [= <- <-]. by eapply Hm.
Qed.

Lemma emits_if {A} P (b : bool) (m1 m2 : M A) :
  emits P m1 → emits P m2 → emits P (if b then m1 else m2).
Proof. by destruct b. Qed.

Lemma emits_set_config P doc : emits P (set_config doc).
Proof. intros w s r s' [= _ <-]. exists []. by rewrite app_nil_r. Qed.

Lemma emits_one {A} P (m : M A) :
  (∀ w s, ∃ ev, P ev ∧ (m w s).2 = log ev s) → emits P m.
Proof.
  intros H w s r s' Hrun. destruct (H w s) as (ev & HP & Hlog).
  rewrite Hrun in Hlog. simpl in Hlog. subst s'. exists [ev]. by repeat constructor.
Qed.

Lemma prepare_shell self sh c w s :
  Command.prepare self sh w s = (Ok c, s) → shell c = sh.
Proof. by intros (items & _ & _ & _ & ? & _)%prepare_inv. Qed.

Lemma emits_capture P self sh trim :
  (∀ w s c r, Command.prepare self sh w s = (Ok c, s) → P (EvCheckOutput c r)) →
  emits P (Command.capture self sh trim).
Proof.
  intros HP w s r s'.
  destruct (prepare_pure self sh w s) as [[e|c] Hprep].
  - rewrite (capture_unprepared _ _ _ _ _ _ Hprep). intros [= _ <-].
    exists []. by rewrite app_nil_r.
  - rewrite (capture_run _ _ _ _ _ _ Hprep). intros [= _ <-].
    eexists [_]. split; [done|]. repeat constructor. by eapply HP.
Qed.

Lemma emits_display P self sh :
  (∀ w s c r, Command.prepare self sh w s = (Ok c, s) → P (EvRun c r)) →
  emits P (Command.display self sh).
Proof.
  intros HP w s r s'.
  destruct (prepare_pure self sh w s) as [[e|c] Hprep].
  - rewrite (display_unprepared _ _ _ _ _ Hprep). intros [= _ <-].
    exists []. by rewrite app_nil_r.
  - rewrite (display_run _ _ _ _ _ Hprep). intros [= _ <-].
    eexists [_]. split; [done|]. repeat constructor. by eapply HP.
Qed.

Lemma emits_info P msg :
  (∀ w r, P (EvCheckOutput (info_cmd w msg) r)) → emits P (Dialog.info msg).
Proof.
  intros HP. unfold Dialog.info. apply emits_bind; [|intros; by apply emits_reads, reads_ret].
  apply emits_capture. intros w s c r [-> _]%prepare_plain_inv. apply HP.
Qed.

Lemma emits_input P title :
  (∀ w r, P (EvCheckOutput
               (plain_cmd w (Dialog.input_command title "Ok" "Cancel" false) false) r)) →
  emits P (Dialog.input title "Ok" "Cancel" false).
Proof.
  intros HP. unfold Dialog.input. apply emits_catch.
  - apply emits_capture. intros w s c r [-> _]%prepare_plain_inv. apply HP.
  - apply emits_reads. by exists (λ _ _, Raise (RuntimeError "Action cancelled by user")).
Qed.

Lemma reads_raise {A} (e : exn) : reads (@raise A e).
Proof. by exists (λ _ _, Raise e). Qed.

Lemma emits_store P section name value : emits P (Config.store section name value).
Proof.
  unfold Config.store.
  repeat (apply emits_bind; [by auto using emits_reads with readers|intros ?]).
  apply emits_set_config.
Qed.

Lemma emits_eval_field section name :
  emits config_event (Config._eval_field section name).
Proof.
  unfold Config._eval_field.
  do 3 (apply emits_bind; [by auto using emits_reads with readers|intros ?]).
  apply emits_if; [apply emits_reads, reads_ret|].
  apply emits_bind; [by auto using emits_reads with readers|intros ?].
  apply emits_if.
  - apply emits_bind; [by auto using emits_reads with readers|intros ?].
    apply emits_bind; [|intros; apply emits_store].
    apply emits_capture. intros w s c r Hprep. left. by eapply prepare_shell.
  - apply emits_bind; [|intros; apply emits_store].
    apply emits_input. intros w r. right. split; [done|]. by eexists.
Qed.


Lemma emits_loads P o : emits P (Config.loads o).
Proof.
  intros w s r s'. unfold Config.loads. mstep.
  destruct o as [[]|]; try (intros [= _ <-]; exists []; by rewrite app_nil_r).
Qed.

Lemma emits_new : emits config_event Config.new.
Proof.
  unfold Config.new, Config.__init__.
  apply emits_bind; [apply emits_reads, reads_world|intros w].
  apply emits_bind; [|intros _; apply emits_bind; [|intros _];
                               apply emits_eval_field].
  repeat apply emits_if.
  - apply emits_bind.
    { apply emits_reads. unfold Config.lookup_name.
      apply reads_bind; [apply reads_world|intros w0].
      destruct (module_globals w0 !! "env"); auto using reads_raise with readers. }
    intros o. apply emits_bind.
    { apply emits_reads. unfold Config.environ_getitem.
      apply reads_bind; [apply reads_world|intros w0].
      destruct o as [[]|]; auto using reads_raise with readers.
      destruct (os_environ w0 !! s); auto using reads_raise with readers. }
    intros text. apply emits_bind; [apply emits_loads|intros; apply emits_set_config].
  - apply emits_bind.
    { apply emits_one. intros w0 s. eexists. split; [|done]. done. }
    intros text. apply emits_bind; [apply emits_loads|intros; apply emits_set_config].
  - destruct (module_globals w !! "CONFIG").
    + apply emits_bind; [apply emits_loads|intros; apply emits_set_config].
    + apply emits_reads, reads_raise.
Qed.

Lemma emits_list :
  emits restoring_event Restic._list.
Proof.
  unfold Restic._list.
  apply emits_bind; [apply emits_reads, reads_get_restic_flags|intros flags].
  apply emits_bind; [apply emits_reads, reads_lift|intros fl].
  apply emits_bind; [apply emits_reads, reads_env|intros env].
  apply emits_bind; [|intros; apply emits_loads].
  apply emits_capture. intros w s c r Hprep.
  apply prepare_argv in Hprep as (Hargs & Hsh & _).
  apply (as_strings_app [JStr "restic"; JStr "snapshots"; JStr "--json"]) in Hargs
    as (a1 & flags' & [= <-] & _ & Hargv).
  split; [done|]. right. by exists flags'.
Qed.

Lemma emits_latest_id : emits restoring_event Restic.latest_id.
Proof.
  unfold Restic.latest_id.
  apply emits_bind; [apply emits_list|intros ?].
  repeat (apply emits_bind; [apply emits_reads, reads_lift|intros ?]).
  apply emits_reads, reads_lift.
Qed.

Lemma emits_restic_restore tmpdir id :
  emits restoring_event (Restic.restore tmpdir id).
Proof.
  unfold Restic.restore. apply emits_bind.
  { destruct id as [[]|];
      first [apply emits_latest_id|apply emits_reads, reads_ret]. }
  intros id'.
  apply emits_bind; [apply emits_reads, reads_get_restic_flags|intros flags].
  apply emits_bind; [apply emits_reads, reads_lift|intros fl].
  apply emits_bind; [apply emits_reads, reads_env|intros env].
  apply emits_display. intros w s c r Hprep.
  apply prepare_argv in Hprep as (Hargs & Hsh & _).
  apply (as_strings_app [JStr "restic"; JStr "restore"]) in Hargs
    as (a1 & rest & [= <-] & _ & Hargv).
  split; [done|]. by exists rest.
Qed.

Lemma emits_restore_and_relocate : emits restoring_event restore_and_relocate.
Proof.
  unfold restore_and_relocate.
  apply emits_bind; [|intros _].
  { apply emits_info. intros w r. split; [done|]. left. by eexists. }
  apply emits_bind; [apply emits_reads, reads_get_directory|intros ?].
  apply emits_bind; [apply emits_reads, reads_lift|intros ?].
  apply emits_bind; [apply emits_restic_restore|intros _].
  apply emits_bind; [|intros _].
  { apply emits_info. intros w r. split; [done|]. left. by eexists. }
  do 3 (apply emits_bind; [apply emits_reads, reads_get_directory|intros ?];
        apply emits_bind; [apply emits_reads, reads_lift|intros ?]).
  apply emits_bind; [|intros _].
  { apply emits_one. intros w s. eexists. split; [|done]. done. }
  apply emits_bind; [apply emits_reads, reads_get_directory|intros ?].
  apply emits_bind; [apply emits_reads, reads_lift|intros ?].
  apply emits_one. intros w s. eexists. split; [|done]. done.
Qed.

(** ** The first half of the workflow *)

Lemma info_command_free msg :
  forallb nul_free (Dialog.info_command msg) = nul_free msg.
Proof.
  change (Dialog.info_command msg)
    with (["dialog"; "--stdout"; "--infobox"] ++ [msg] ++ ["0"; "0"]).
  rewrite !forallb_app. cbn [forallb]. by rewrite !andb_true_r.
Qed.

(** An info box whose text holds no NUL is one captured process. *)
Lemma info_run msg w s :
  nul_free msg = true →
  Dialog.info msg w s =
  (rbind (subprocess_check_output w (trace s) (info_cmd w msg)) (λ _, Ok ()),
   log (EvCheckOutput (info_cmd w msg)
          (subprocess_check_output w (trace s) (info_cmd w msg))) s).
Proof.
  intros Hfree. unfold Dialog.info. rewrite bind_run.
  rewrite (dialog_run (Dialog.info_command msg)) by done.
  rewrite info_command_free, Hfree. fold (info_cmd w msg).
  by destruct (subprocess_check_output w (trace s) (info_cmd w msg)).
Qed.

Lemma truefalse_run question true_ false_ default w s :
  let args := Dialog.truefalse_command question true_ false_ default in
  let c := plain_cmd w args false in
  let r := subprocess_check_output w (trace s) c in
  Dialog.truefalse question true_ false_ default w s =
  if forallb nul_free args
  then (Ok (match r with inr _ => true | inl _ => false end),
        log (EvCheckOutput c r) s)
  else (Ok false, s).
Proof.
  intros args c r. unfold Dialog.truefalse, catch. rewrite bind_run.
  fold args. rewrite (dialog_run args) by done.
  destruct (forallb nul_free args); [|done].
  fold c r. by destruct r.
Qed.

Lemma create_inv tags w s r s2 :
  Restic.create tags w s = (r, s2) →
  (s2 = s ∧ ∃ e, r = Raise e) ∨
  ∃ c rest,
    s2 = log (EvRun c (subprocess_run w (trace s) c)) s ∧
    r = of_option (subprocess_run w (trace s) c) ∧
    argv c = "restic" :: "backup" :: "--tag" :: Py.join "," tags :: rest ∧
    shell c = false.
Proof.
  unfold Restic.create.
  destruct (reads_state (Config.get_restic_flags "backup") w s
              (reads_get_restic_flags _)) as [[e|flags] Hflags].
  { rewrite (bind_raise _ _ _ _ _ _ Hflags). intros [= <- <-]. left. eauto. }
  rewrite (bind_ok _ _ _ _ _ _ Hflags).
  mcase Hiter; [intros [= <- <-]; left; eauto|]. rename a into fl.
  destruct (reads_state Config.get_directory w s reads_get_directory)
    as [[e|directory] Hdir].
  { rewrite (bind_raise _ _ _ _ _ _ Hdir). intros [= <- <-]. left. eauto. }
  rewrite (bind_ok _ _ _ _ _ _ Hdir).
  destruct (reads_state Config.env w s reads_env) as [[e|env] Henv].
  { rewrite (bind_raise _ _ _ _ _ _ Henv). intros [= <- <-]. left. eauto. }
  rewrite (bind_ok _ _ _ _ _ _ Henv).
  match goal with |- Command.display ?cmd _ _ _ = _ → _ =>
    destruct (prepare_pure cmd false w s) as [[e|c] Hprep] end.
  { rewrite (display_unprepared _ _ _ _ _ Hprep). intros [= <- <-]. left. eauto. }
  rewrite (display_run _ _ _ _ _ Hprep). intros [= <- <-]. right.
  apply prepare_argv in Hprep as (Hargs & Hsh & _).
  apply (as_strings_app [JStr "restic"; JStr "backup"; JStr "--tag";
                         JStr (Py.join "," tags)])
    in Hargs as (a1 & rest & Hfixed & _ & Hargv).
  simpl in Hfixed. destruct (nul_free (Py.join "," tags)); [|done].
  injection Hfixed as <-. by exists c, rest.
Qed.

(** Compare two spellings of a log. *)
Ltac solve_trace := unfold log; simpl; rewrite <-?app_assoc; reflexivity.

(** [Forall] over an explicit list, from the hypotheses. *)
Ltac solve_all :=
  repeat first [ apply Forall_nil_2 | apply Forall_cons_2; [assumption|] ].

Lemma confirm_cmd_is_confirm w d : is_confirm (confirm_cmd w d).
Proof. split; [done|]. by eexists. Qed.

Lemma info_not_confirm w msg r :
  ¬ confirm_event (EvCheckOutput (info_cmd w msg) r).
Proof. by intros [_ [q [=]]]. Qed.

Lemma snapshot_and_delete_inv w s r s2 :
  snapshot_and_delete w s = (r, s2) →
  ∃ tail,
    trace s2 = trace s ++ tail ∧
    ((Forall (λ ev, ¬ confirm_event ev ∧ ¬ mutates_directory ev ∧ ¬ exists_event ev)
        tail ∧ ∃ e, r = Raise e) ∨
     ∃ pre d res post,
       tail = pre ++ EvCheckOutput (confirm_cmd w d) res :: post ∧
       Py.getitem (self_config s) "directory" = Ok (JStr d) ∧
       Forall (λ ev, ¬ confirm_event ev ∧ ¬ mutates_directory ev ∧ ¬ exists_event ev)
         pre ∧
       (∃ p1 bc p2, pre = p1 ++ EvRun bc None :: p2 ∧ is_snapshot_backup bc) ∧
       Forall (λ ev, ¬ confirm_event ev ∧ ¬ exists_event ev) post ∧
       (∀ e, res = Raise e → r = Raise UserCancelledError ∧ post = [])).
Proof.
  unfold snapshot_and_delete. rewrite bind_run, info_run by done.
  set (i := EvCheckOutput _ _).
  assert (¬ confirm_event i ∧ ¬ mutates_directory i ∧ ¬ exists_event i) as Hi.
  { split; [apply info_not_confirm|]. split; by intros []. }
  destruct (subprocess_check_output w (trace s) _) as [e|o1]; simpl.
  { intros [= <- <-]. exists [i]. split; [done|]. left. split; [solve_all|eauto]. }
  rewrite bind_run.
  destruct (Restic.create ["snapshot"] w (log i s)) as [rc sc] eqn:Hcreate.
  apply create_inv in Hcreate
    as [[-> [e ->]]|(bc & rest & -> & -> & Hargv & Hsh)].
  { intros [= <- <-]. exists [i]. split; [done|]. left. split; [solve_all|eauto]. }
  set (b := EvRun bc _).
  assert (¬ confirm_event b ∧ ¬ mutates_directory b ∧ ¬ exists_event b) as Hb.
  { repeat split; by intros []. }
  destruct (subprocess_run w (trace (log i s)) bc) as [e|] eqn:Hrun; simpl.
  { intros [= <- <-]. exists [i; b]. split; [solve_trace|].
    left. split; [solve_all|eauto]. }
  unfold Config.get_directory at 1. do 2 mstep.
  mcase Hdir.
  { intros [= <- <-]. exists [i; b]. split; [solve_trace|].
    left. split; [solve_all|eauto]. }
  mcase Hfmt.
  { intros [= <- <-]. exists [i; b]. split; [solve_trace|].
    left. split; [solve_all|eauto]. }
  rename a0 into d. destruct a; try done. simpl in Hfmt. injection Hfmt as ->.
  simpl in Hdir. rewrite bind_run, truefalse_run. cbv zeta.
  destruct (forallb nul_free _).
  2:{ simpl. mstep. intros [= <- <-]. exists [i; b]. split; [solve_trace|].
      left. split; [solve_all|eauto]. }
  fold (confirm_cmd w d).
  set (res := subprocess_check_output w _ (confirm_cmd w d)).
  assert (∃ p1 bc0 p2, [i; b] = p1 ++ EvRun bc0 None :: p2 ∧ is_snapshot_backup bc0)
    as Hbackup.
  { exists [i], bc, []. split; [done|]. by exists rest. }
  destruct res as [e|out] eqn:Hres.
  { simpl. intros [= <- <-].
    exists ([i; b] ++ [EvCheckOutput (confirm_cmd w d) (inl e)]).
    split; [solve_trace|]. right.
    exists [i; b], d, (inl e), []. split; [done|]. split; [done|].
    split; [solve_all|]. split; [done|]. split; [constructor|done]. }
  simpl. mstep. unfold Config.get_directory. do 2 mstep.
  simpl. mlift Hdir.
  rewrite (bind_lift_ok _ _ _ _ d) by done.
  unfold rmtree. intros [= <- <-].
  eexists ([i; b] ++ EvCheckOutput (confirm_cmd w d) (inr out) :: [_]).
  split; [solve_trace|]. right.
  eexists [i; b], d, (inr out), [_]. split; [done|]. split; [done|].
  split; [solve_all|]. split; [done|].
  split; [|done]. repeat constructor; by intros [].
Qed.

(** ** The workflow as a whole *)

Lemma config_not_confirm ev : config_event ev → ¬ confirm_event ev.
Proof.
  destruct ev as [c r| | | | |]; simpl; try tauto.
  intros [Hsh|[_ [title Htitle]]] [Hsh' [q Hq]]; [congruence|].
  rewrite Hq in Htitle. discriminate.
Qed.

Lemma config_not_workflow ev :
  config_event ev →
  ¬ mutates_directory ev ∧ ¬ exists_event ev ∧ ¬ backup_event ev.
Proof. destruct ev; simpl; tauto. Qed.

Lemma restoring_not_confirm ev : restoring_event ev → ¬ confirm_event ev.
Proof.
  destruct ev as [c r| | | | |]; simpl; try tauto.
  intros [_ [[msg Hmsg]|[flags Hflags]]] [_ [q Hq]].
  - rewrite Hq in Hmsg. discriminate.
  - rewrite Hq in Hflags. discriminate.
Qed.


(** An element that satisfies [P] between two lists that do not determines
    the split. *)
Lemma split_unique {A} (P : A → Prop) (l1 l2 pre post : list A) (x y : A) :
  Forall (λ a, ¬ P a) l1 → Forall (λ a, ¬ P a) l2 → P x → P y →
  l1 ++ x :: l2 = pre ++ y :: post →
  pre = l1 ∧ y = x ∧ post = l2.
Proof.
  intros H1 H2 Hx Hy. revert pre.
  induction H1 as [|a l1 Ha _ IH]; intros [|p pre] Heq; simplify_eq/=.
  - done.
  - rewrite Forall_forall in H2. destruct (H2 y); [|done].
    apply elem_of_app. right. constructor.
  - done.
  - by destruct (IH pre) as (-> & -> & ->).
Qed.

Lemma new_from_initial w r s1 :
  Config.new w initial = (r, s1) → Forall config_event (trace s1).
Proof.
  intros Hnew. destruct (emits_new _ _ _ _ Hnew) as (new & -> & Hall). done.
Qed.

(** How a run of the workflow decomposes. *)
Lemma restore_inv w r s' :
  restore w initial = (r, s') →
  ((∃ e, r = Raise e) ∧ Forall config_event (trace s')) ∨
  ∃ s1 d,
    Config.new w initial = (Ok (), s1) ∧
    Py.getitem (self_config s1) "directory" = Ok (JStr d) ∧
    let s2 := log (EvExists d (os_path_exists w (trace s1) d)) s1 in
    if os_path_exists w (trace s1) d then
      ∃ ra sa,
        snapshot_and_delete w s2 = (ra, sa) ∧
        match ra with
        | inl e => r = Raise e ∧ s' = sa
        | inr _ => restore_and_relocate w sa = (r, s')
        end
    else restore_and_relocate w s2 = (r, s').
Proof.
  rewrite restore_halves. rewrite bind_run.
  destruct (Config.new w initial) as [[e|[]] s1] eqn:Hnew.
  { intros [= <- <-]. left. split; [eauto|]. by eapply new_from_initial. }
  pose proof (new_from_initial _ _ _ Hnew) as Hcfg.
  unfold Config.get_directory at 1. do 2 mstep.
  mcase Hdir. { intros [= <- <-]. left. split; [eauto|done]. }
  mcase Hpath. { intros [= <- <-]. left. split; [eauto|done]. }
  destruct a; try done. simpl in Hpath. injection Hpath as ->.
  intros Hrun. right. exists s1, a0. split; [done|]. split; [done|].
  revert Hrun. rewrite bind_run. unfold path_exists at 1. cbv zeta.
  destruct (os_path_exists w (trace s1) a0); simpl.
  - rewrite bind_run.
    destruct (snapshot_and_delete w _) as [[e|[]] sa] eqn:HA.
    + intros [= <- <-]. by exists (inl e), sa.
    + intros Hrest. by exists (inr ()), sa.
  - by mstep.
Qed.

(** Either the confirmation is never shown, or it is shown once: after the
    existence check and a successful snapshot, and before any change to the
    file system. *)
Lemma restore_prompt w r s' :
  restore w initial = (r, s') →
  Forall (λ ev, ¬ confirm_event ev) (trace s') ∨
  ∃ before d res after,
    trace s' = before ++ EvCheckOutput (confirm_cmd w d) res :: after ∧
    Forall (λ ev, ¬ confirm_event ev) before ∧
    Forall (λ ev, ¬ mutates_directory ev) before ∧
    Forall (λ ev, ¬ confirm_event ev) after ∧
    EvExists d true ∈ before ∧
    (∃ p1 bc p2, before = p1 ++ EvRun bc None :: p2 ∧ is_snapshot_backup bc) ∧
    (∀ e, res = Raise e → r = Raise UserCancelledError ∧ after = []).
Proof.
  intros Hrun. apply restore_inv in Hrun as [[_ Hcfg]|(s1 & d & Hnew & Hdir & Hrun)].
  { left. eapply Forall_impl; [done|]. apply config_not_confirm. }
  pose proof (new_from_initial _ _ _ Hnew) as Hcfg.
  assert (Forall (λ ev, ¬ confirm_event ev) (trace s1)) as Hcfg1.
  { eapply Forall_impl; [done|]. apply config_not_confirm. }
  assert (Forall (λ ev, ¬ mutates_directory ev) (trace s1)) as Hcfg2.
  { eapply Forall_impl; [exact Hcfg|]. intros ev Hev.
    by apply config_not_workflow in Hev as [? _]. }
  cbv zeta in Hrun.
  destruct (os_path_exists w (trace s1) d) eqn:Hexists.
  - destruct Hrun as (ra & sa & HA & Hrest).
    apply snapshot_and_delete_inv in HA as (tail & Htail & Hshape).
    simpl in Htail.
    assert (∃ tailR, trace s' = trace sa ++ tailR ∧
                     Forall (λ ev, ¬ confirm_event ev) tailR ∧
                     (∀ e, ra = Raise e → r = Raise e ∧ tailR = [])) as
      (tailR & Htrace & HtailR & Hstop).
    { destruct ra as [e|[]].
      - destruct Hrest as [-> ->]. exists []. rewrite app_nil_r.
        split; [done|]. split; [constructor|]. by intros ? [= ->].
      - destruct (emits_restore_and_relocate _ _ _ _ Hrest) as (tailR & ? & HR).
        exists tailR. split; [done|]. split; [|done].
        eapply Forall_impl; [exact HR|]. apply restoring_not_confirm. }
    destruct Hshape as [[Hall [e ->]]|(pre & d' & res & post & -> & Hd' & Hpre
                                       & Hbackup & Hpost & Hdeclined)].
    + left. destruct (Hstop e eq_refl) as [_ ->].
      rewrite Htrace, app_nil_r, Htail. rewrite !Forall_app. split; [split|].
      * done.
      * repeat constructor. by intros [].
      * eapply Forall_impl; [exact Hall|]. intros ev; cbv beta; tauto.
    + right. simpl in Hd'. rewrite Hdir in Hd'. injection Hd' as <-.
      exists (trace s1 ++ [EvExists d true] ++ pre), d, res, (post ++ tailR).
      split; [|split; [|split; [|split; [|split; [|split]]]]].
      * rewrite Htrace, Htail. by rewrite <-!app_assoc.
      * rewrite !Forall_app. split; [done|]. split.
        { repeat constructor. by intros []. }
        eapply Forall_impl; [exact Hpre|]. intros ev; cbv beta; tauto.
      * rewrite !Forall_app. split; [done|]. split.
        { repeat constructor. by intros []. }
        eapply Forall_impl; [exact Hpre|]. intros ev; cbv beta; tauto.
      * rewrite Forall_app. split; [|done].
        eapply Forall_impl; [exact Hpost|]. intros ev; cbv beta; tauto.
      * rewrite !elem_of_app. right. left. constructor.
      * destruct Hbackup as (p1 & bc & p2 & -> & Hbc).
        exists (trace s1 ++ [EvExists d true] ++ p1), bc, p2.
        split; [by rewrite <-!app_assoc|done].
      * intros e ->. destruct (Hdeclined e eq_refl) as [-> ->].
        destruct (Hstop _ eq_refl) as [-> ->]. done.
  - left. destruct (emits_restore_and_relocate _ _ _ _ Hrun) as (tailR & -> & HR).
    simpl. rewrite !Forall_app. split; [split|].
    + done.
    + repeat constructor. by intros [].
    + eapply Forall_impl; [exact HR|]. apply restoring_not_confirm.
Qed.

(** C8.  If the log of a run shows the delete confirmation declined, then
    the run ends there with [RuntimeError("Action cancelled by user")] (the
    specification's [UserCancelledError]): nothing follows the prompt, and
    the script has not removed or moved anything.  The prompt names the
    directory whose existence was checked. *)
Theorem confirmation_declined (w : World) (r : result unit) (s' : State)
    (pre post : list Event) (c : Cmd) (e : exn) :
  restore w initial = (r, s') →
  trace s' = pre ++ EvCheckOutput c (Raise e) :: post →
  is_confirm c →
  r = Raise UserCancelledError ∧
  post = [] ∧
  Forall (λ ev, ¬ mutates_directory ev) (trace s') ∧
  ∃ d, EvExists d true ∈ pre ∧ c = confirm_cmd w d.
Proof.
  intros Hrun Htrace Hc.
  apply restore_prompt in Hrun
    as [Hnone|(before & d & res & after & Hshape & Hb1 & Hb2 & Ha & Hex & _ & Hdecl)].
  { rewrite Htrace in Hnone. apply Forall_app in Hnone as [_ Hnone].
    apply Forall_cons_1 in Hnone as [Hnone _]. by destruct Hnone. }
  rewrite Htrace in Hshape.
  destruct (split_unique confirm_event before after pre post
              (EvCheckOutput (confirm_cmd w d) res) (EvCheckOutput c (Raise e)))
    as (-> & [= -> <-] & ->); [done|done|apply confirm_cmd_is_confirm|done|done|].
  destruct (Hdecl e eq_refl) as [-> ->].
  split; [done|]. split; [done|]. split; [|by exists d].
  rewrite Htrace. apply Forall_app. split; [done|]. repeat constructor. by intros [].
Qed.

Example confirmation_declined_witness :
  (restore Sample.declining_world initial).1 = Raise UserCancelledError ∧
  Forall (λ ev, ¬ mutates_directory ev)
    (trace (restore Sample.declining_world initial).2).
Proof.
  destruct (confirmation_declined Sample.declining_world
              (restore Sample.declining_world initial).1
              (restore Sample.declining_world initial).2
              (take 3 (trace (restore Sample.declining_world initial).2)) []
              (confirm_cmd Sample.declining_world "/d") (CalledProcessError 1))
    as (Hr & _ & Hall & _).
  - apply surjective_pairing.
  - vm_compute. reflexivity.
  - apply confirm_cmd_is_confirm.
  - exact (conj Hr Hall).
Defined.

(** C10.  Whenever the log of a run shows the delete confirmation, a
    [restic backup --tag snapshot] that exited with status 0 precedes it; if
    the confirmation was declined the run ends with
    [RuntimeError("Action cancelled by user")] all the same. *)
Theorem snapshot_precedes_confirmation (w : World) (r : result unit)
    (s' : State) (pre post : list Event) (c : Cmd) (res : result string) :
  restore w initial = (r, s') →
  trace s' = pre ++ EvCheckOutput c res :: post →
  is_confirm c →
  (∃ p1 bc p2, pre = p1 ++ EvRun bc None :: p2 ∧ is_snapshot_backup bc) ∧
  (∃ d, EvExists d true ∈ pre) ∧
  (∀ e, res = Raise e → r = Raise UserCancelledError).
Proof.
  intros Hrun Htrace Hc.
  apply restore_prompt in Hrun
    as [Hnone|(before & d & res' & after & Hshape & Hb1 & _ & Ha & Hex & Hbk & Hdecl)].
  { rewrite Htrace in Hnone. apply Forall_app in Hnone as [_ Hnone].
    apply Forall_cons_1 in Hnone as [Hnone _]. by destruct Hnone. }
  rewrite Htrace in Hshape.
  destruct (split_unique confirm_event before after pre post
              (EvCheckOutput (confirm_cmd w d) res') (EvCheckOutput c res))
    as (-> & [= -> <-] & ->); [done|done|apply confirm_cmd_is_confirm|done|done|].
  split; [done|]. split; [by exists d|].
  intros e ->. by destruct (Hdecl e eq_refl).
Qed.


Example snapshot_precedes_confirmation_witness :
  (∃ p1 bc p2,
     take 3 (trace (restore Sample.declining_world initial).2)
     = p1 ++ EvRun bc None :: p2 ∧ is_snapshot_backup bc) ∧
  (restore Sample.declining_world initial).1 = Raise UserCancelledError.
Proof.
  destruct (snapshot_precedes_confirmation Sample.declining_world
              (restore Sample.declining_world initial).1
              (restore Sample.declining_world initial).2
              (take 3 (trace (restore Sample.declining_world initial).2)) []
              (confirm_cmd Sample.declining_world "/d")
              (Raise (CalledProcessError 1)))
    as (Hbackup & _ & Hdeclined).
  - apply surjective_pairing.
  - vm_compute. reflexivity.
  - apply confirm_cmd_is_confirm.
  - exact (conj Hbackup (Hdeclined (CalledProcessError 1) eq_refl)).
Defined.

(** ** The second half of the workflow *)











(** * Further properties of the script *)

(** ** [class Command] *)

Lemma prepare_overlays self sh c w s :
  Command.prepare self sh w s = (Ok c, s) → overlays w (Command._env self) c.
Proof.
  intros (items & _ & _ & _ & _ & Henv)%prepare_inv.
  by eapply merged_env_overlays.
Qed.

Lemma as_strings_accepts (items : list json) :
  forallb plain_string items = true ↔ ∃ args, as_strings items = Ok args.
Proof.
  induction items as [|v items IH]; simpl.
  - split; [by exists []|done].
  - destruct v as [| | | |a| |]; simpl; try (split; [done|by intros [? ?]]).
    destruct (nul_free a); simpl; [|split; [done|by intros [? ?]]].
    rewrite IH. split.
    + intros [args ->]. by eexists.
    + intros [args Hargs]. destruct (as_strings items); [done|]. by eexists.
Qed.

Lemma executable_accepts sh items args :
  as_strings items = Ok args →
  executable sh items = Ok () ↔ sh || negb (bool_decide (items = [])) = true.
Proof.
  intros [-> _]%as_strings_plain. destruct sh; [done|]. by destruct args.
Qed.

(** The environment is accepted exactly when the overlay binds legal names
    to strings, all without NUL. *)
Lemma merged_env_accepts (w : World) (env : gmap string json) :
  map_Forall (λ k v, legal_name k && nul_free k && plain_string v) env ↔
  ∃ merged, merged_env (os_environ w) env = Ok merged.
Proof.
  pose proof (environ_ok w) as Hok. split.
  - intros Henv. exists (omap str_of (exported_env (os_environ w) env)).
    unfold merged_env, env_list. rewrite bool_decide_true.
    + simpl. unfold envp. rewrite bool_decide_true; [done|].
      intros k text. rewrite lookup_omap, exported_env_lookup.
      destruct (env !! k) as [v|] eqn:Hk; simpl.
      * specialize (Henv k v Hk). simpl in Henv.
        destruct v as [| | | |a| |]; try done. intros [= <-].
        destruct (legal_name k); [|done]. exact Henv.
      * destruct (os_environ w !! k) as [a|] eqn:Ha; [|done]. intros [= <-].
        specialize (Hok k a Ha). simpl in Hok.
        destruct (legal_name k); [|done]. exact Hok.
    + intros k v. rewrite exported_env_lookup.
      destruct (env !! k) as [v'|] eqn:Hk.
      * intros [= <-]. specialize (Henv k v' Hk). simpl in *.
        destruct (legal_name k); [|done]. destruct (nul_free k); [|done].
        by destruct v'.
      * destruct (os_environ w !! k) as [a|] eqn:Ha; [|done]. intros [= <-].
        specialize (Hok k a Ha). simpl in *. by destruct (legal_name k).
  - intros [merged (-> & Hloop & Hblock)%merged_env_inv] k v Hk.
    assert (exported_env (os_environ w) env !! k = Some v) as Hex
      by by rewrite exported_env_lookup, Hk.
    specialize (Hloop k v Hex). simpl in Hloop.
    destruct (legal_name k); [|done]. destruct v as [| | | |a| |]; try done.
    specialize (Hblock k a). rewrite lookup_omap, Hex in Hblock.
    specialize (Hblock eq_refl). simpl in *.
    destruct (nul_free k); [|done]. exact Hblock.
Qed.

(** [subprocess] accepts the call exactly when [accepts] says so. *)
Lemma prepare_accepts self sh w s :
  accepts sh (Command._command self) (Command._env self) = true ↔
  ∃ c, Command.prepare self sh w s = (Ok c, s).
Proof.
  unfold accepts. split.
  - intros [Hargs Henv%bool_decide_eq_true]%andb_prop.
    destruct (arguments (Command._command self)) as [|items] eqn:Hitems; [done|].
    apply andb_prop in Hargs as [Hexe Hplain].
    apply as_strings_accepts in Hplain as [args Hargs].
    apply (merged_env_accepts w) in Henv as [merged Hmerged].
    exists {| argv := args; shell := sh; penv := merged |}.
    apply (prepare_ok _ _ items); [done..| |done].
    apply as_strings_plain in Hargs as [-> _].
    destruct sh; [by left|right]. by destruct args.
  - intros [c (items & Hitems & Hexe & Hargs & _ & Henv)%prepare_inv].
    rewrite Hitems. apply andb_true_intro. split.
    + apply andb_true_intro. split.
      * by apply (executable_accepts _ _ _ Hargs).
      * apply as_strings_accepts. by eexists.
    + apply bool_decide_eq_true, (merged_env_accepts w). by eexists.
Qed.

(** X1.  [capture] and [display] start a process exactly when [subprocess]
    accepts the command and the environment.  An accepted call starts one
    process, with the [shell] flag given and with the command's environment
    laid over [os.environ]: the command's variables win, every other
    ambient variable is passed through.  A call that is not accepted raises
    and starts nothing. *)
Theorem command_environment (self : Command.t) (sh trim : bool)
    (w : World) (s : State) :
  if accepts sh (Command._command self) (Command._env self)
  then ∃ c,
    overlays w (Command._env self) c ∧ shell c = sh ∧
    Command.capture self sh trim w s =
      (rbind (subprocess_check_output w (trace s) c)
         (λ out, Ok (if trim then Py.strip out else out)),
       log (EvCheckOutput c (subprocess_check_output w (trace s) c)) s) ∧
    Command.display self sh w s =
      (of_option (subprocess_run w (trace s) c),
       log (EvRun c (subprocess_run w (trace s) c)) s)
  else ∃ e,
    Command.capture self sh trim w s = (Raise e, s) ∧
    Command.display self sh w s = (Raise e, s).
Proof.
  destruct (accepts _ _ _) eqn:Haccepts.
  - apply (prepare_accepts self sh w s) in Haccepts as [c Hprep].
    exists c. split; [by eapply prepare_overlays|].
    split; [by eapply prepare_shell|].
    split; [by apply capture_run|by apply display_run].
  - destruct (prepare_pure self sh w s) as [[e|c] Hprep].
    + exists e. split; [by apply capture_unprepared|by apply display_unprepared].
    + assert (accepts sh (Command._command self) (Command._env self) = true)
        as Hyes by (apply (prepare_accepts self sh w s); by exists c).
      congruence.
Qed.

Example command_environment_witness :
  (∃ c,
     shell c = true ∧
     Command.display (Command.init (JStr "pass show restic") ∅) true
       Sample.world initial
     = (Ok (), log (EvRun c None) initial)) ∧
  (∃ e, Command.display (Command.init (JArr []) ∅) false Sample.world initial
        = (Raise e, initial)).
Proof.
  split.
  - destruct (command_environment (Command.init (JStr "pass show restic") ∅)
                true true Sample.world initial) as (c & _ & Hsh & _ & Hrun).
    exists c. exact (conj Hsh Hrun).
  - destruct (command_environment (Command.init (JArr []) ∅)
                false true Sample.world initial) as (e & _ & Hrun).
    exists e. exact Hrun.
Defined.

(** ** [class Dialog] *)

(** X2.  [Dialog.truefalse] never raises.  When none of its texts holds a
    NUL it starts the one yes/no dialog and answers [True] exactly when that
    process succeeded; any failure of the process counts as no.  Texts with
    a NUL are refused by [subprocess], which counts as no as well, and no
    dialog is shown.  The preselected button is the [false] label unless
    [default] is set. *)
Theorem truefalse_total (question true_ false_ : string) (default : bool)
    (w : World) (s : State) :
  let args := Dialog.truefalse_command question true_ false_ default in
  let c := plain_cmd w args false in
  let r := subprocess_check_output w (trace s) c in
  ∃ answer : bool,
    Dialog.truefalse question true_ false_ default w s
    = (Ok answer,
       if forallb nul_free args then log (EvCheckOutput c r) s else s) ∧
    (answer = true ↔ forallb nul_free args = true ∧ ∃ out, r = Ok out) ∧
    argv c !! 8%nat = Some (if default then true_ else false_).
Proof.
  intros args c r. pose proof (truefalse_run question true_ false_ default w s) as Hrun.
  cbv zeta in Hrun. fold args c r in Hrun.
  destruct (forallb nul_free args).
  - exists (match r with inr _ => true | inl _ => false end).
    split; [done|]. split; [|done].
    destruct r as [e|out]; split; try done; [by intros [_ [? ?]]|by eauto].
  - exists false. split; [done|]. split; [|done]. split; [done|by intros [? _]].
Qed.

Example truefalse_total_witness :
  Dialog.truefalse "Delete?" "Yes" "No" false Sample.declining_world initial
  = (Ok false,
     log (EvCheckOutput
            (plain_cmd Sample.declining_world
               (Dialog.truefalse_command "Delete?" "Yes" "No" false) false)
            (Raise (CalledProcessError 1))) initial).
Proof.
  destruct (truefalse_total "Delete?" "Yes" "No" false
              Sample.declining_world initial) as (answer & Hrun & Hanswer & _).
  destruct answer.
  - destruct (proj1 Hanswer eq_refl) as [_ [out Hout]]. discriminate Hout.
  - exact Hrun.
Defined.

(** X3.  [Dialog.input], when none of its texts holds a NUL, starts the one
    input dialog; it returns the stripped output when the process succeeds,
    and reports every failure of the process, whatever it was, as
    [RuntimeError("Action cancelled by user")].  Texts with a NUL are refused
    by [subprocess]: the same error, and no dialog. *)
Theorem input_outcome (dialog true_ false_ : string) (default : bool)
    (w : World) (s : State) :
  let args := Dialog.input_command dialog true_ false_ default in
  let c := plain_cmd w args false in
  let r := subprocess_check_output w (trace s) c in
  (forallb nul_free args = true →
     (∀ out, r = Ok out →
        Dialog.input dialog true_ false_ default w s
        = (Ok (Py.strip out), log (EvCheckOutput c (Ok out)) s)) ∧
     (∀ e, r = Raise e →
        Dialog.input dialog true_ false_ default w s
        = (Raise UserCancelledError, log (EvCheckOutput c (Raise e)) s))) ∧
  (forallb nul_free args = false →
     Dialog.input dialog true_ false_ default w s
     = (Raise UserCancelledError, s)).
Proof.
  intros args c r. pose proof (input_run dialog true_ false_ default w s) as Hrun.
  cbv zeta in Hrun. fold args c r in Hrun.
  split; intros Hfree; rewrite Hfree in Hrun; [|done].
  split; [intros out Hr|intros e Hr]; by rewrite Hrun, Hr.
Qed.

Example input_outcome_witness :
  Dialog.input "Enter value:" "Ok" "Cancel" false Sample.world initial
  = (Ok "typed",
     log (EvCheckOutput
            (plain_cmd Sample.world
               (Dialog.input_command "Enter value:" "Ok" "Cancel" false) false)
            (Ok "typed")) initial).
Proof.
  exact (proj1 (proj1 (input_outcome "Enter value:" "Ok" "Cancel" false
                         Sample.world initial) eq_refl) "typed" eq_refl).
Defined.

(** ** [class Config] *)

(** X4.  With neither environment variable set, a global [CONFIG] that
    parses to a document whose two sections already hold a literal [pass] is
    loaded without any interaction: the document becomes the configuration
    unchanged, nothing is run and nobody is asked. *)
Theorem literal_config_loads_silently (w : World) (s : State) (text : string)
    (doc : json) (restic s3 : list (string * json)) :
  "RESTIC_EZ_CONFIG" ∉ dom (os_environ w) →
  "RESTIC_EZ_CONFIG_FILE" ∉ dom (os_environ w) →
  module_globals w !! "CONFIG" = Some (PyData (JStr text)) →
  json_loads w text = Ok doc →
  Py.getitem doc "restic" = Ok (JObj restic) →
  is_Some (Py.assoc "pass" restic) →
  Py.getitem doc "s3" = Ok (JObj s3) →
  is_Some (Py.assoc "pass" s3) →
  Config.new w s = (Ok (), {| self_config := doc; trace := trace s |}).
Proof.
  intros H1 H2 Hglobal Hparse Hrestic [p1 Hp1] Hs3 [p2 Hp2].
  unfold Config.new, Config.__init__. mstep.
  rewrite !bool_decide_false by done. rewrite Hglobal.
  rewrite bind_bind. unfold Config.loads at 1. do 2 mstep. mlift Hparse. mstep.
  set (s1 := {| self_config := doc; trace := trace s |}).
  rewrite (bind_ok _ _ _ _ () s1); by eapply eval_field_literal.
Qed.

Example literal_config_loads_silently_witness :
  Config.new Sample.world initial = (Ok (), Sample.loaded Sample.config).
Proof.
  apply (literal_config_loads_silently Sample.world initial
           (Sample.dumps Sample.config) Sample.config
           [("pass", JStr "p"); ("repo", JStr "r")]
           [("user", JStr "u"); ("pass", JStr "p2")]).
  - vm_compute. intros [=].
  - vm_compute. intros [=].
  - reflexivity.
  - reflexivity.
  - reflexivity.
  - by eexists.
  - reflexivity.
  - by eexists.
Defined.

(** X5.  With [RESTIC_EZ_CONFIG] unset and [RESTIC_EZ_CONFIG_FILE] set to
    any path, construction opens the file named [RESTIC_EZ_CONFIG_FILE] in
    the working directory, not the path: when no such file can be read, it
    raises the error of that [open], having touched nothing else. *)
Theorem file_source_opens_variable_name (w : World) (s : State)
    (path : string) (e : exn) :
  "RESTIC_EZ_CONFIG" ∉ dom (os_environ w) →
  os_environ w !! "RESTIC_EZ_CONFIG_FILE" = Some path →
  open_read w (trace s) "RESTIC_EZ_CONFIG_FILE" = Raise e →
  Config.new w s
  = (Raise e, log (EvOpen "RESTIC_EZ_CONFIG_FILE" (Raise e)) s).
Proof.
  intros H1 H2 Hopen. unfold Config.new, Config.__init__. mstep.
  rewrite bool_decide_false by done.
  rewrite bool_decide_true by (apply elem_of_dom; by eexists).
  rewrite !bind_bind. rewrite bind_run. unfold open_and_read. cbv zeta.
  by rewrite Hopen.
Qed.

Example file_source_opens_variable_name_witness :
  Config.new Sample.file_world initial
  = (Raise (OSError "No such file or directory"),
     log (EvOpen "RESTIC_EZ_CONFIG_FILE"
            (Raise (OSError "No such file or directory"))) initial).
Proof.
  apply (file_source_opens_variable_name Sample.file_world initial
           "/etc/restic-ez.json").
  - vm_compute. intros [=].
  - reflexivity.
  - reflexivity.
Defined.

(** X6.  Evaluating a secret field changes nothing but that field: every
    other section of the document and every other key of the section keep
    their values. *)
Theorem eval_field_changes_only_the_field (w : World) (s s' : State)
    (section name : string) :
  Config._eval_field section name w s = (Ok (), s') →
  (∀ other, section ≠ other →
     Py.getitem (self_config s') other = Py.getitem (self_config s) other) ∧
  (∀ key, name ≠ key →
     field_of (self_config s') section key = field_of (self_config s) section key).
Proof.
  intros Hrun. split; [intros other Hne; by eapply eval_field_frame|].
  intros key Hne.
  apply eval_field_inv in Hrun
    as [[-> _]|(fields & secret & Hsec & _ & Hsec' & _)]; [done|].
  unfold field_of. rewrite Hsec, Hsec'. simpl. by rewrite assoc_set_ne.
Qed.

Example eval_field_changes_only_the_field_witness :
  field_of (self_config (Config._eval_field "restic" "pass" Sample.world
                           (Sample.loaded Sample.unresolved)).2) "restic" "repo"
  = Ok (JStr "r").
Proof.
  rewrite (proj2 (eval_field_changes_only_the_field Sample.world
                    (Sample.loaded Sample.unresolved)
                    (Config._eval_field "restic" "pass" Sample.world
                       (Sample.loaded Sample.unresolved)).2
                    "restic" "pass" eq_refl) "repo"); [reflexivity|done].
Defined.

(** ** [class Restic] *)

(** X7.  [restore] with an id that is not [None] never lists the archives
    and applies no filter: it starts at most one process, [restic restore
    --target tmpdir ... id], and an id that is not a string raises before
    anything starts.  Passing [None] is the same as passing no id. *)
Theorem restore_with_id_skips_listing (tmpdir : string) (id : json)
    (w : World) (s : State) :
  (id = JNull →
   Restic.restore tmpdir (Some id) w s = Restic.restore tmpdir None w s) ∧
  (id ≠ JNull →
   ∀ r s', Restic.restore tmpdir (Some id) w s = (r, s') →
   ∃ new,
     trace s' = trace s ++ new ∧ Forall not_captured new ∧
     ((new = [] ∧ ∃ e, r = Raise e) ∨
      ∃ c flags text,
        id = JStr text ∧
        new = [EvRun c (subprocess_run w (trace s) c)] ∧
        r = of_option (subprocess_run w (trace s) c) ∧
        argv c = "restic" :: "restore" :: "--target" :: tmpdir :: flags ++ [text])).
Proof.
  split; [by intros ->|]. intros Hid r s'. rewrite restore_given by done.
  intros Hrun. apply restore_with_inv in Hrun
    as [[-> He]|(c & flags & text & -> & -> & -> & Hargv & _)].
  - exists []. rewrite app_nil_r. split; [done|]. split; [constructor|]. by left.
  - eexists [_]. split; [done|]. split; [by repeat constructor|].
    right. by exists c, flags, text.
Qed.

Example restore_with_id_skips_listing_witness :
  ∃ new,
    trace (Restic.restore "/tmp/x" (Some (JStr "b")) Sample.world
             (Sample.loaded Sample.config)).2
    = [] ++ new ∧ Forall not_captured new.
Proof.
  destruct (proj2 (restore_with_id_skips_listing "/tmp/x" (JStr "b") Sample.world
                     (Sample.loaded Sample.config)) ltac:(discriminate)
              (Restic.restore "/tmp/x" (Some (JStr "b")) Sample.world
                 (Sample.loaded Sample.config)).1
              (Restic.restore "/tmp/x" (Some (JStr "b")) Sample.world
                 (Sample.loaded Sample.config)).2)
    as (new & Htrace & Hall & _).
  - apply surjective_pairing.
  - exists new. exact (conj Htrace Hall).
Defined.



(** X9.  While the environment cannot be built from the configuration (a
    required field is missing), no operation of the driver starts a process:
    each raises and leaves the log as it was. *)
Theorem incomplete_configuration_starts_nothing (w : World) (s : State)
    (e : exn) (tags : list string) (tmpdir : string) (id : json) :
  Config.env w s = (Raise e, s) →
  (∃ e', Restic._list w s = (Raise e', s)) ∧
  (∃ e', Restic.create tags w s = (Raise e', s)) ∧
  (∃ e', Restic.restore tmpdir (Some id) w s = (Raise e', s)) ∧
  (∃ e', Restic.check w s = (Raise e', s)) ∧
  (∃ e', Restic.break_lock w s = (Raise e', s)).
Proof.
  intros Henv.
  assert (∀ context (k : list json → M unit),
            (∀ fl, ∃ e', k fl w s = (Raise e', s)) →
            ∃ e', (let* flags := Config.get_restic_flags context in
                   let* flags := lift (Py.iter flags) in k flags)%script w s
                  = (Raise e', s)) as Hflags.
  { intros context k Hk.
    destruct (reads_state (Config.get_restic_flags context) w s
                (reads_get_restic_flags _)) as [[e0|flags] Hf].
    { rewrite (bind_raise _ _ _ _ _ _ Hf). eauto. }
    rewrite (bind_ok _ _ _ _ _ _ Hf). mcase Hiter; eauto. }
  repeat split.
  - unfold Restic._list.
    destruct (reads_state (Config.get_restic_flags "list") w s
                (reads_get_restic_flags _)) as [[e0|flags] Hf].
    { rewrite (bind_raise _ _ _ _ _ _ Hf). eauto. }
    rewrite (bind_ok _ _ _ _ _ _ Hf). mcase Hiter; [eauto|].
    rewrite (bind_raise _ _ _ _ _ _ Henv). eauto.
  - unfold Restic.create. apply Hflags. intros fl.
    destruct (reads_state Config.get_directory w s reads_get_directory)
      as [[e0|d] Hd].
    { rewrite (bind_raise _ _ _ _ _ _ Hd). eauto. }
    rewrite (bind_ok _ _ _ _ _ _ Hd), (bind_raise _ _ _ _ _ _ Henv). eauto.
  - assert (∃ e', restore_with tmpdir id w s = (Raise e', s)) as Hwith.
    { unfold restore_with. apply Hflags. intros fl.
      rewrite (bind_raise _ _ _ _ _ _ Henv). eauto. }
    assert (id = JNull ∨ id ≠ JNull) as [->|Hid]
      by (destruct id; [by left|by right..]); [|by rewrite restore_given].
    rewrite restore_unfold. unfold Restic.latest_id, Restic._list.
    rewrite !bind_bind.
    destruct (reads_state (Config.get_restic_flags "list") w s
                (reads_get_restic_flags _)) as [[e0|flags] Hf].
    { rewrite (bind_raise _ _ _ _ _ _ Hf). eauto. }
    rewrite (bind_ok _ _ _ _ _ _ Hf). rewrite !bind_bind. mcase Hiter; [eauto|].
    rewrite !bind_bind, (bind_raise _ _ _ _ _ _ Henv). eauto.
  - unfold Restic.check. apply Hflags. intros fl.
    rewrite (bind_raise _ _ _ _ _ _ Henv). eauto.
  - unfold Restic.break_lock. apply Hflags. intros fl.
    rewrite (bind_raise _ _ _ _ _ _ Henv). eauto.
Qed.


Example incomplete_configuration_starts_nothing_witness :
  ∃ e', Restic.check Sample.world (Sample.loaded Sample.incomplete)
        = (Raise e', Sample.loaded Sample.incomplete).
Proof.
  exact (proj1 (proj2 (proj2 (proj2
           (incomplete_configuration_starts_nothing Sample.world
              (Sample.loaded Sample.incomplete) (KeyError "repo")
              ["backup"] "/tmp/x" (JStr "a") eq_refl))))).
Defined.

(** ** The workflows *)

(** A workflow that constructs the configuration, shows an info box and
    then performs one operation. *)
Lemma announced_inv (msg : string) (op : M unit) w s s1 :
  nul_free msg = true →
  Config.new w s = (Ok (), s1) →
  let i := info_cmd w msg in
  let r := subprocess_check_output w (trace s1) i in
  (Config.new >> Dialog.info msg >> op)%script w s =
  match r with
  | inl e => (Raise e, log (EvCheckOutput i (Raise e)) s1)
  | inr out => op w (log (EvCheckOutput i (Ok out)) s1)
  end.
Proof.
  intros Hfree Hnew i r.
  rewrite (bind_ok _ _ _ _ _ _ Hnew), bind_run, info_run by done.
  fold i r. by destruct r.
Qed.

(** X10.  [create], [check] and [break_lock] depend on the info box: when
    the [dialog] process fails, the workflow raises that failure and the
    backup, check or unlock is never started; when it succeeds, the workflow
    continues with exactly the driver operation ([create] with the single tag
    [backup]). *)
Theorem workflows_need_the_info_box (w : World) (s s1 : State) :
  Config.new w s = (Ok (), s1) →
  let box := λ msg, EvCheckOutput (info_cmd w msg)
                      (subprocess_check_output w (trace s1) (info_cmd w msg)) in
  let outcome := λ (msg : string) (op : M unit),
    match subprocess_check_output w (trace s1) (info_cmd w msg) with
    | inl e => (Raise e, log (box msg) s1)
    | inr _ => op w (log (box msg) s1)
    end in
  create w s = outcome "Creating archive..." (Restic.create ["backup"]) ∧
  check w s = outcome "Verifying archive..." Restic.check ∧
  break_lock w s = outcome "Breaking lock..." Restic.break_lock.
Proof.
  intros Hnew box outcome. unfold outcome, box, create, check, break_lock.
  rewrite (announced_inv "Creating archive..." _ _ _ _ eq_refl Hnew),
    (announced_inv "Verifying archive..." _ _ _ _ eq_refl Hnew),
    (announced_inv "Breaking lock..." _ _ _ _ eq_refl Hnew).
  repeat split;
    by destruct (subprocess_check_output w (trace s1) (info_cmd w _)).
Qed.

Example workflows_need_the_info_box_witness :
  create (Sample.declining Sample.world) initial
  = Restic.create ["backup"] (Sample.declining Sample.world)
      (log (EvCheckOutput (info_cmd (Sample.declining Sample.world)
                             "Creating archive...") (Ok ""))
         (Sample.loaded Sample.config)).
Proof.
  exact (proj1 (workflows_need_the_info_box (Sample.declining Sample.world)
                  initial (Sample.loaded Sample.config) eq_refl)).
Defined.

Lemma exported_env_twice environ (env : gmap string json) :
  exported_env environ (exported_env environ env) = exported_env environ env.
Proof.
  apply map_eq. intros k. rewrite !exported_env_lookup.
  by destruct (env !! k), (environ !! k).
Qed.

Lemma merged_env_exported environ (env : gmap string json) penv0 :
  merged_env environ env = Ok penv0 →
  merged_env environ (exported_env environ env) = Ok penv0.
Proof. unfold merged_env. by rewrite exported_env_twice. Qed.

(** X11.  [tmux] starts [/usr/bin/env tmux] with the very environment the
    driver gives to [restic]: building [{**os.environ, **config.env()}] and
    laying it over [os.environ] once more changes nothing.  The session so
    receives the resolved secrets and the whole serialized configuration. *)
Theorem tmux_environment (w : World) (s s1 : State) (env : gmap string json)
    (restic_env : gmap string string) :
  Config.new w s = (Ok (), s1) →
  Config.env w s1 = (Ok env, s1) →
  merged_env (os_environ w) env = Ok restic_env →
  let c := {| argv := ["/usr/bin/env"; "tmux"]; shell := false;
              penv := restic_env |} in
  tmux w s = (of_option (subprocess_run w (trace s1) c),
              log (EvRun c (subprocess_run w (trace s1) c)) s1) ∧
  overlays w env c.
Proof.
  intros Hnew Henv Hmerged c. split; [|by eapply merged_env_overlays].
  unfold tmux. mstep.
  rewrite (bind_ok _ _ _ _ _ _ Hnew), (bind_ok _ _ _ _ _ _ Henv).
  apply display_run.
  apply (prepare_ok _ _ [JStr "/usr/bin/env"; JStr "tmux"]); [done|done|by right|].
  by apply merged_env_exported.
Qed.

Example tmux_environment_witness :
  (tmux Sample.world initial).1 = Ok () ∧
  overlays Sample.world
    (env_of (Sample.dumps Sample.config)
       (JStr "/d") (JStr "p") (JStr "r") (JStr "u") (JStr "p2"))
    {| argv := ["/usr/bin/env"; "tmux"]; shell := false;
       penv := Sample.delegated_environ |}.
Proof.
  destruct (tmux_environment Sample.world initial (Sample.loaded Sample.config)
              (env_of (Sample.dumps Sample.config)
                 (JStr "/d") (JStr "p") (JStr "r") (JStr "u") (JStr "p2"))
              Sample.delegated_environ) as [Hrun Hover].
  - reflexivity.
  - reflexivity.
  - vm_compute. reflexivity.
  - split; [|exact Hover]. cbv zeta in Hrun. rewrite Hrun. reflexivity.
Defined.

(** ** Ties between timestamps *)

Lemma ltb_iff (x y : string) : String.ltb x y = true ↔ String.le x y ∧ x ≠ y.
Proof.
  split.
  - intros Hlt. split; [by apply ltb_le|]. intros ->. by rewrite ltb_irrefl in Hlt.
  - intros [Hle Hne]. unfold String.le, String.leb in Hle. unfold String.ltb.
    destruct (String.compare x y) eqn:E; try done.
    by apply String.compare_eq_iff in E.
Qed.

Lemma le_ltb_trans (x y z : string) :
  String.le x y → String.ltb y z = true → String.ltb x z = true.
Proof.
  intros Hxy [Hyz Hne]%ltb_iff. apply ltb_iff. split; [by etrans|].
  intros ->. apply Hne. by apply (anti_symm String.le).
Qed.

Lemma le_not_ltb (x y : string) : String.le x y → String.ltb y x = false.
Proof.
  intros Hle. destruct (String.ltb y x) eqn:E; [|done].
  apply ltb_iff in E as [Hyx Hne]. destruct Hne. by apply (anti_symm String.le).
Qed.

Lemma insert_keyed_pure a l :
  Py.insert_keyed (keyed a) (keyed <$> l) = Ok (keyed <$> insert_time a l).
Proof.
  induction l as [|b l IH]; [done|].
  cbn [fmap list_fmap Py.insert_keyed insert_time]. simpl.
  destruct (String.ltb (archive_time b) (archive_time a)); simpl; [|done].
  fold (keyed <$> l). by rewrite IH.
Qed.

Lemma sort_keyed_pure l :
  Py.sort_keyed (keyed <$> l) = Ok (keyed <$> sort_time l).
Proof.
  induction l as [|a l IH]; [done|].
  cbn [fmap list_fmap Py.sort_keyed]. fold (keyed <$> l). rewrite IH. simpl.
  apply insert_keyed_pure.
Qed.

Lemma sorted_pure items :
  Forall is_archive items → Py.sorted Restic.time_key items = Ok (sort_time items).
Proof.
  intros Hall. unfold Py.sorted.
  rewrite (keys_of_archives _ Hall). simpl. rewrite sort_keyed_pure. simpl.
  f_equal. rewrite <-list_fmap_compose. apply list_fmap_id.
Qed.

Lemma insert_time_sorted a l :
  StronglySorted time_le l → StronglySorted time_le (insert_time a l).
Proof.
  intros Hs. destruct (insert_keyed_archive a l) as (l' & Hrun & _ & Hsorted).
  rewrite insert_keyed_pure in Hrun. injection Hrun as Heq.
  assert (insert_time a l = l') as ->; [|by apply Hsorted].
  apply (f_equal (fmap snd)) in Heq.
  rewrite <-!list_fmap_compose in Heq. by rewrite !list_fmap_id in Heq.
Qed.

Lemma sort_time_sorted l : StronglySorted time_le (sort_time l).
Proof.
  induction l as [|a l IH]; [constructor|]. by apply insert_time_sorted.
Qed.

(** Where the last element of an insertion ends up: the inserted element
    becomes last only if it is strictly later than the last one so far. *)
Lemma last_insert_time a l :
  StronglySorted time_le l →
  last (insert_time a l) =
  match last l with
  | None => Some a
  | Some m => if String.ltb (archive_time m) (archive_time a) then Some a else Some m
  end.
Proof.
  induction 1 as [|b l Hs IH Hall]; [done|].
  cbn [insert_time].
  destruct (String.ltb (archive_time b) (archive_time a)) eqn:Hba.
  - destruct l as [|c l]; [by simpl; rewrite Hba|].
    change (last (b :: insert_time a (c :: l)))
      with (last (b :: insert_time a (c :: l))).
    assert (∃ x l', insert_time a (c :: l) = x :: l') as (x & l' & Hins).
    { simpl. destruct (String.ltb (archive_time c) (archive_time a));
        [by exists c, (insert_time a l)|by exists a, (c :: l)]. }
    rewrite Hins, last_cons_cons, <-Hins, IH. by rewrite last_cons_cons.
  - rewrite last_cons_cons.
    destruct (last (b :: l)) as [m|] eqn:Hlast; [|by apply last_None in Hlast].
    assert (time_le b m) as Hbm.
    { destruct l as [|c l]; [by simplify_eq/=; reflexivity|].
      rewrite last_cons_cons in Hlast. rewrite Forall_forall in Hall.
      apply Hall. by apply last_Some_elem_of. }
    rewrite le_not_ltb; [done|]. etrans; [|exact Hbm]. by apply not_ltb_le.
Qed.

(** The last element of the sorted list splits the original list: nothing
    before it is later, everything after it is strictly earlier. *)
Lemma last_sort_time l sel :
  last (sort_time l) = Some sel →
  ∃ before after,
    l = before ++ sel :: after ∧
    Forall (λ x, time_le x sel) before ∧
    Forall (λ y, time_lt y sel) after.
Proof.
  revert sel. induction l as [|a l IH]; intros sel; [done|].
  cbn [sort_time foldr]. fold (sort_time l).
  rewrite last_insert_time by apply sort_time_sorted.
  destruct (last (sort_time l)) as [m|] eqn:Hlast.
  - destruct (IH m eq_refl) as (before & after & -> & Hb & Ha).
    destruct (String.ltb (archive_time m) (archive_time a)) eqn:Hma;
      intros [= <-].
    + exists [], (before ++ m :: after). split; [done|]. split; [constructor|].
      apply Forall_app. split; [|constructor; [exact Hma|]].
      * eapply Forall_impl; [exact Hb|]. intros x Hx. unfold time_lt.
        eapply le_ltb_trans; [exact Hx|exact Hma].
      * eapply Forall_impl; [exact Ha|]. intros y Hy. unfold time_lt in *.
        eapply le_ltb_trans; [|exact Hma]. by apply ltb_le.
    + exists (a :: before), after. split; [done|]. split; [|done].
      constructor; [|done]. by apply not_ltb_le.
  - intros [= <-]. apply last_None in Hlast.
    assert (l = []) as ->.
    { destruct l as [|b l]; [done|]. exfalso. revert Hlast.
      cbn [sort_time foldr]. fold (sort_time l).
      generalize (sort_time l). intros [|c k]; simpl; [done|].
      by destruct (String.ltb _ _). }
    exists [], []. by repeat constructor.
Qed.

(** X12.  Ties are broken by position: the archive that [restore] picks
    when no id is given splits the non-snapshot archives of the listing, in
    listing order, into archives that are not later (before it) and archives
    that are strictly earlier (after it).  Among several archives with the
    latest timestamp the one listed last is restored. *)
Theorem latest_tie_break (w : World) (s s1 : State) (items : list json) :
  Restic._list w s = (Ok (JArr items), s1) →
  Forall is_archive items →
  (∃ a, a ∈ items ∧ ¬ is_snapshot a) →
  ∃ before sel after,
    filter (λ a, ¬ is_snapshot a) items = before ++ sel :: after ∧
    Forall (λ x, time_le x sel) before ∧
    Forall (λ y, time_lt y sel) after ∧
    Restic.latest_id w s = (Ok (JStr (archive_id sel)), s1).
Proof.
  intros Hlist Hall (a0 & Ha0 & Hns0).
  destruct (filter_archives items Hall) as [Hfilter Hkept].
  set (kept := filter (λ a, ¬ is_snapshot a) items) in *.
  destruct (last (sort_time kept)) as [sel|] eqn:Hlast.
  - destruct (last_sort_time kept sel Hlast) as (before & after & Hsplit & Hb & Ha).
    exists before, sel, after. do 3 (split; [done|]).
    unfold Restic.latest_id. rewrite (bind_ok _ _ _ _ _ _ Hlist).
    rewrite (bind_lift_ok _ _ _ _ items) by done. mlift Hfilter.
    mlift (sorted_pure kept Hkept).
    unfold Restic.last_item. rewrite Hlast. mstep. unfold lift. f_equal.
    assert (is_archive sel) as Hsel.
    { rewrite Forall_forall in Hkept. apply Hkept. rewrite Hsplit.
      apply elem_of_app. right. constructor. }
    unfold is_archive in Hsel. unfold archive_id.
    destruct (Py.getitem sel "time") as [|[]]; try done.
    by destruct (Py.getitem sel "id") as [|[]].
  - exfalso. apply last_None in Hlast.
    assert (a0 ∈ kept) as Hin by by apply list_elem_of_filter.
    destruct kept as [|b k]; [by apply elem_of_nil in Hin|].
    revert Hlast. cbn [sort_time foldr]. fold (sort_time k).
    generalize (sort_time k). intros [|c k']; simpl; [done|].
    by destruct (String.ltb _ _).
Qed.

Example latest_tie_break_witness :
  (Restic.latest_id Sample.tied_world (Sample.loaded Sample.config)).1
  = Ok (JStr "b").
Proof.
  destruct (latest_tie_break Sample.tied_world (Sample.loaded Sample.config)
              (Restic._list Sample.tied_world (Sample.loaded Sample.config)).2
              Sample.tied)
    as (before & sel & after & Hsplit & _ & Hafter & Hrun).
  - vm_compute. reflexivity.
  - repeat constructor.
  - exists (archive_record "a" "2024-03-01T00:00:00Z" []).
    split; [constructor|by intros []].
  - rewrite Hrun. simpl. do 2 f_equal.
    assert (filter (λ a, ¬ is_snapshot a) Sample.tied
            = [archive_record "a" "2024-03-01T00:00:00Z" [];
               archive_record "b" "2024-03-01T00:00:00Z" []]) as Hkept
      by reflexivity.
    rewrite Hkept in Hsplit. clear Hrun Hkept.
    destruct before as [|x [|y before]]; cbn [app] in Hsplit.
    + injection Hsplit as <- <-.
      apply Forall_cons_1 in Hafter as [Hlt _]. by vm_compute in Hlt.
    + injection Hsplit as _ <- _. reflexivity.
    + injection Hsplit as _ _ Hnil. by destruct before.
Defined.
